(** * Relevance selection engine of [resume_builder.py]

    A shallow embedding of the tokenizer, the scorer, the selector and the
    summary composer of [src/resume_builder.py], and the properties of the
    specification that concern them.

    Conventions of the embedding.
    - A Python [str] is a Rocq [string]; its 8-bit characters are read as the
      code points U+0000..U+00FF (Latin-1).  [str.lower] is character-wise on
      that range and is modelled exactly there.
    - A Python [set] of strings is a [gset string]; a [dict] with string keys
      is a [gmap string _]; [d.get(k, default)] is a lookup with a default.
    - A knowledge-base item is a [dict] whose values are strings or lists of
      strings (the two shapes the data model gives).
    - Python integers coming from the caller (the limits) are [Z]; lengths
      and scores, which are sums of lengths, are [nat]. *)

From Stdlib Require Import ZArith Ascii String List Lia.
From Stdlib Require Import Sorting.Sorted Sorting.Permutation.
From Stdlib Require Import DecimalString.
From stdpp Require Import gmap strings list fin_maps sorting.

Open Scope string_scope.

(** ** Characters and strings *)

(** [str.lower] on one code point below 256: [A-Z] and the upper-case
    Latin-1 letters U+00C0..U+00DE (the sign U+00D7 apart) move up by 32. *)
Definition py_lower_char (c : ascii) : ascii :=
  let n := nat_of_ascii c in
  if (((65 <=? n) && (n <=? 90)) ||
      ((192 <=? n) && (n <=? 222) && negb (n =? 215)))%nat
  then ascii_of_nat (n + 32) else c.

Fixpoint py_lower (s : string) : string :=
  match s with
  | EmptyString => EmptyString
  | String c s' => String (py_lower_char c) (py_lower s')
  end.

(** The character class [[a-z0-9\+#\.]] of the regular expression. *)
Definition tok_char (c : ascii) : bool :=
  let n := nat_of_ascii c in
  (((97 <=? n) && (n <=? 122)) || ((48 <=? n) && (n <=? 57)) ||
   (n =? 43) || (n =? 35) || (n =? 46))%nat.

Fixpoint string_forallb (p : ascii -> bool) (s : string) : bool :=
  match s with
  | EmptyString => true
  | String c s' => p c && string_forallb p s'
  end.

Fixpoint string_existsb (p : ascii -> bool) (s : string) : bool :=
  match s with
  | EmptyString => false
  | String c s' => p c || string_existsb p s'
  end.

Definition string_is_empty (s : string) : bool :=
  match s with EmptyString => true | String _ _ => false end.

(** [sep.join(l)] *)
Fixpoint py_join (sep : string) (l : list string) : string :=
  match l with
  | [] => ""
  | [x] => x
  | x :: l' => x +:+ sep +:+ py_join sep l'
  end.

(** ** Tokenizer *)

(** [re.findall(r"[a-z0-9\+#\.]+", s)]: the scanner goes through [s] from
    the left; [cur] is the match in progress, extended greedily while the
    next character is in the class and emitted when it is not, or when the
    text ends. *)
Definition emit (cur : string) (k : list string) : list string :=
  if string_is_empty cur then k else cur :: k.

Fixpoint findall_runs (s : string) (cur : string) : list string :=
  match s with
  | EmptyString => emit cur []
  | String c s' =>
      if tok_char c then findall_runs s' (cur +:+ String c EmptyString)
      else emit cur (findall_runs s' EmptyString)
  end.

Definition normalize (text : string) : list string :=
  findall_runs (py_lower text) EmptyString.

Definition tokenize (text : string) : gset string :=
  list_to_set (normalize text).

(** ** Items and [str()] of their values *)

Inductive value : Type :=
| VStr (s : string)
| VList (l : list string).

#[global] Instance value_eq_dec : EqDecision value.
Proof. solve_decision. Defined.

Abbreviation item := (gmap string value).

Definition hex_digit (n : nat) : ascii :=
  if (n <? 10)%nat then ascii_of_nat (48 + n) else ascii_of_nat (87 + n).

Definition char_is (n : nat) (c : ascii) : bool := (nat_of_ascii c =? n)%nat.

(** [repr] of one character of a [str], given the quote chosen for it. *)
Definition py_repr_char (quote : ascii) (c : ascii) : string :=
  let n := nat_of_ascii c in
  if ((n =? 92) || (n =? nat_of_ascii quote))%nat then String "\" (String c "")
  else if (n =? 9)%nat then "\t"
  else if (n =? 10)%nat then "\n"
  else if (n =? 13)%nat then "\r"
  else if ((n <? 32) || (n =? 127) || ((128 <=? n) && (n <=? 160)) ||
           (n =? 173))%nat
  then String "\" (String "x" (String (hex_digit (n / 16))
                                  (String (hex_digit (n mod 16)) "")))
  else String c "".

Fixpoint py_repr_body (quote : ascii) (s : string) : string :=
  match s with
  | EmptyString => EmptyString
  | String c s' => py_repr_char quote c +:+ py_repr_body quote s'
  end.

(** [repr(s)]: single quotes, unless [s] has a single quote and no double
    quote. *)
Definition py_repr (s : string) : string :=
  let quote :=
    if string_existsb (char_is 39) s && negb (string_existsb (char_is 34) s)
    then ascii_of_nat 34 else ascii_of_nat 39 in
  String quote (py_repr_body quote s) +:+ String quote "".

(** [str(v)] and, in an f-string, [{v}]. *)
Definition py_str (v : value) : string :=
  match v with
  | VStr s => s
  | VList l => "[" +:+ py_join ", " (map py_repr l) +:+ "]"
  end.

Fixpoint string_chars (s : string) : list string :=
  match s with
  | EmptyString => []
  | String c s' => String c "" :: string_chars s'
  end.

(** Iterating a value: the elements of a list, the characters of a string. *)
Definition py_iter (v : value) : list string :=
  match v with
  | VList l => l
  | VStr s => string_chars s
  end.

(** ** Scorer *)

(** [[t.lower() for t in item.get(tags_field, [])]] *)
Definition item_tags (it : item) (tags_field : string) : list string :=
  map py_lower (py_iter (default (VList []) (it !! tags_field))).

(** [3 * len(set(tags) & jd_tokens)] *)
Definition tag_bonus (jd_tokens : gset string) (tags : list string) : nat :=
  3 * size ((list_to_set tags : gset string) ∩ jd_tokens).

(** One turn of the loop over [fields]. *)
Definition field_bonus (jd_tokens : gset string) (it : item) (f : string) : nat :=
  let content := py_lower (py_str (default (VStr "") (it !! f))) in
  let content_tokens : gset string := list_to_set (normalize content) in
  size (content_tokens ∩ jd_tokens).

Definition score_item_with (jd_tokens : gset string) (it : item)
    (fields : list string) (tags_field : string) : nat :=
  fold_left (fun score f => score + field_bonus jd_tokens it f) fields
            (0 + tag_bonus jd_tokens (item_tags it tags_field)).

(** [score_item] with the default [tags_field="tags"]. *)
Definition score_item (jd_tokens : gset string) (it : item)
    (fields : list string) : nat :=
  score_item_with jd_tokens it fields "tags".

(** ** Selector *)

(** The knowledge base: [kb.get(key, [])] of each collection the selector
    reads, an absent key being the empty list. *)
Record KnowledgeBase : Type := {
  kb_skills : list string;
  kb_projects : list item;
  kb_experience : list item;
  kb_certificates : list item;
  kb_education : list item
}.

(** [limits.get(key, d)] *)
Definition limit_get (limits : gmap string Z) (key : string) (d : Z) : Z :=
  default d (limits !! key).

(** [l[:n]]: a negative [n] counts from the end. *)
Definition py_slice_to {A : Type} (l : list A) (n : Z) : list A :=
  if (0 <=? n)%Z then take (Z.to_nat n) l
  else take (Z.to_nat (Z.of_nat (length l) + n)) l.

(** Pass 1: [[s for s in kb_skills if s.lower() in jd_tokens]] *)
Definition skills_pass1 (jd_tokens : gset string) (skills : list string)
  : list string :=
  filter (fun s => py_lower s ∈ jd_tokens) skills.

(** One turn of the loop of pass 2 on the list [matched] it appends to. *)
Definition skills_step (jd_tokens : gset string) (matched : list string)
    (s : string) : list string :=
  if decide (s ∈ matched) then matched
  else if decide ((list_to_set (normalize s) : gset string) ∩ jd_tokens ≠ ∅)
       then (matched ++ [s])%list
       else matched.

Definition skills_pass2 (jd_tokens : gset string) (skills : list string)
    (matched : list string) : list string :=
  fold_left (skills_step jd_tokens) skills matched.

Definition select_skills (jd_tokens : gset string) (skills : list string)
    (limit : Z) : list string :=
  let matched := skills_pass1 jd_tokens skills in
  let matched :=
    if (Z.of_nat (length matched) <? limit)%Z
    then skills_pass2 jd_tokens skills matched
    else matched in
  py_slice_to matched limit.

(** [scored.sort(key=lambda x: x[0], reverse=True)]: the sort of Python is
    stable, also with [reverse=True]; an insertion sort from the right that
    puts an element before the first one whose key is not larger. *)
Fixpoint insert_desc {A : Type} (x : nat * A) (l : list (nat * A))
  : list (nat * A) :=
  match l with
  | [] => [x]
  | y :: l' => if (x.1 <? y.1)%nat then y :: insert_desc x l' else x :: l
  end.

Definition sort_desc {A : Type} (l : list (nat * A)) : list (nat * A) :=
  foldr insert_desc [] l.

Definition rank_section (jd_tokens : gset string) (items : list item)
    (fields : list string) (limit : Z) : list item :=
  let scored := map (fun it => (score_item jd_tokens it fields, it)) items in
  let scored := filter (fun x => (0 < x.1)%nat) scored in
  let scored := sort_desc scored in
  map snd (py_slice_to scored limit).

Definition project_fields : list string := ["description"; "name"; "tech"].
Definition experience_fields : list string := ["description"; "role"; "company"].
Definition certificate_fields : list string := ["name"; "issuer"].

Record SelectionResult : Type := {
  sel_skills : list string;
  sel_projects : list item;
  sel_experience : list item;
  sel_certs : list item;
  sel_education : list item;
  sel_jd_tokens : gset string
}.

Definition select_relevant (kb : KnowledgeBase) (jd_text : string)
    (limits : gmap string Z) : SelectionResult :=
  let jd_tokens := tokenize jd_text in
  {| sel_skills :=
       select_skills jd_tokens (kb_skills kb) (limit_get limits "skills" 10);
     sel_projects :=
       rank_section jd_tokens (kb_projects kb) project_fields
                    (limit_get limits "projects" 3);
     sel_experience :=
       rank_section jd_tokens (kb_experience kb) experience_fields
                    (limit_get limits "experience" 3);
     sel_certs :=
       rank_section jd_tokens (kb_certificates kb) certificate_fields
                    (limit_get limits "certificates" 3);
     sel_education :=
       py_slice_to (kb_education kb) (limit_get limits "education" 2);
     sel_jd_tokens := jd_tokens |}.

(** ** Summary composer *)

(** [sorted(l)] on strings: ascending by code points. *)
Fixpoint insert_str (x : string) (l : list string) : list string :=
  match l with
  | [] => [x]
  | y :: l' => if String.leb x y then x :: l else y :: insert_str x l'
  end.

Definition sorted_str (l : list string) : list string :=
  foldr insert_str [] l.

(** [str(n)] of a length. *)
Definition py_str_nat (n : nat) : string :=
  NilZero.string_of_uint (Nat.to_uint n).

Definition make_summary (jd_tokens : gset string) (skills : list string)
    (projects experience : list item) (kb : KnowledgeBase) : string :=
  let key_terms :=
    take 6 (sorted_str
              (elements (jd_tokens ∩ list_to_set (map py_lower skills)))) in
  let parts : list string := [] in
  let parts :=
    match experience with
    | e :: _ =>
        let role := py_str (default (VStr "Engineer") (e !! "role")) in
        (parts ++ [role +:+ " with hands-on work in " +:+
                   (match key_terms with
                    | [] => "relevant tools"
                    | _ => py_join ", " key_terms
                    end)])%list
    | [] =>
        match projects with
        | _ :: _ =>
            (parts ++ ["Engineer with projects in " +:+
                       (match key_terms with
                        | [] => "relevant areas"
                        | _ => py_join ", " key_terms
                        end)])%list
        | [] => parts
        end
    end in
  let parts :=
    match projects with
    | _ :: _ =>
        (parts ++ ["Delivered " +:+ py_str_nat (length projects) +:+
                   " relevant project(s)."])%list
    | [] => parts
    end in
  py_join " " parts.

(** ** Renderer *)

(** [render_word] builds a document with the python-docx library and saves
    it.  The embedding keeps what the function puts into the document: the
    paragraphs in order, each with its runs (text, font, size, bold), its
    style and whether it is centred.  The document of [Document()] has no
    paragraph.  The two scalar keys of the knowledge base that only the
    renderer reads are a record of their own. *)
Record Run : Type := {
  run_text : string;
  run_font : string;
  run_size : nat;
  run_bold : bool
}.

Record Paragraph : Type := {
  par_runs : list Run;
  par_style : option string;
  par_centered : bool
}.

Record Profile : Type := {
  kb_name : option string;
  kb_contact : gmap string string
}.

(** What stops the renderer.  [IndexError]: [runs[0]] of a paragraph made
    from an empty text, which has no run.  [TextNotStr]: a list where the
    library takes the text of a run; what the library does with it is not
    part of the embedding. *)
Inductive render_error : Type :=
| IndexError
| TextNotStr.

Definition result (A : Type) : Type := (render_error + A)%type.

Definition ret {A : Type} (a : A) : result A := inr a.

Definition bind {A B : Type} (m : result A) (k : A -> result B) : result B :=
  match m with
  | inl e => inl e
  | inr a => k a
  end.

Notation "'let*' x ':=' m 'in' k" := (bind m (fun x => k))
  (at level 10, x name, m at level 100, k at level 200).

Fixpoint foldM {A S : Type} (f : S -> A -> result S) (l : list A) (s : S)
  : result S :=
  match l with
  | [] => ret s
  | x :: l' => let* s' := f s x in foldM f l' s'
  end.

(** [set_font(run, size=size, bold=bold)] on a run of text [text]; the font
    name is the default of [set_font]. *)
Definition styled_run (text : string) (size : nat) (bold : bool) : Run :=
  {| run_text := text; run_font := "Calibri"; run_size := size;
     run_bold := bold |}.

(** [doc.add_paragraph()] *)
Definition add_blank (doc : list Paragraph) : list Paragraph :=
  (doc ++ [ {| par_runs := []; par_style := None; par_centered := false |} ])%list.

(** [p = doc.add_paragraph(); run = p.add_run(text); set_font(run, ...)]:
    [add_run] makes the run also for an empty text. *)
Definition add_run_paragraph (doc : list Paragraph) (text : string)
    (size : nat) (bold centered : bool) : list Paragraph :=
  (doc ++ [ {| par_runs := [styled_run text size bold]; par_style := None;
               par_centered := centered |} ])%list.

(** [p = doc.add_paragraph(text, style); set_font(p.runs[0], ...)]:
    [add_paragraph] makes no run for an empty text. *)
Definition add_text_paragraph (doc : list Paragraph) (text : string)
    (style : option string) (size : nat) (bold centered : bool)
  : result (list Paragraph) :=
  if string_is_empty text then inl IndexError
  else ret (doc ++ [ {| par_runs := [styled_run text size bold];
                        par_style := style;
                        par_centered := centered |} ])%list.

(** Truth value of [d.get(key)] and of [d.get(key, "")]. *)
Definition py_truthy (o : option value) : bool :=
  match o with
  | None => false
  | Some (VStr s) => negb (string_is_empty s)
  | Some (VList l) => match l with [] => false | _ :: _ => true end
  end.

(** A value given to the library as the text of a run.  An empty list is
    false as an empty string is, and no text is set then. *)
Definition text_of (v : value) : result string :=
  match v with
  | VStr s => ret s
  | VList [] => ret ""
  | VList (_ :: _) => inl TextNotStr
  end.

(** [{d.get(key, '')}] in an f-string. *)
Definition get_str (it : item) (key : string) : string :=
  py_str (default (VStr "") (it !! key)).

(** [" | ".join([c for c in contact_fields if c])] *)
Definition contact_line (contact : gmap string string) : string :=
  let contact_fields :=
    [ default "" (contact !! "email"); default "" (contact !! "phone");
      default "" (contact !! "github"); default "" (contact !! "linkedin") ] in
  py_join " | " (filter (fun c => c <> "") contact_fields).

(** [f" ({d.get('year', '')})" if d.get("year") else ""] *)
Definition year_suffix (it : item) : string :=
  if py_truthy (it !! "year") then " (" +:+ get_str it "year" +:+ ")" else "".

(** The line of an education entry or of a certificate: the two fields
    [first] and [second] joined by a dash when both are there, the one that
    is there otherwise, the word [fallback] when none is. *)
Definition entry_line (em_dash : string) (it : item)
    (first second fallback : string) : string :=
  let year := year_suffix it in
  if py_truthy (it !! first) && py_truthy (it !! second)
  then get_str it first +:+ " " +:+ em_dash +:+ " " +:+ get_str it second
       +:+ year
  else if py_truthy (it !! first) then get_str it first +:+ year
  else if py_truthy (it !! second) then get_str it second +:+ year
  else fallback +:+ year.

(** The optional paragraph of a description: [if d.get("description"):
    para = doc.add_paragraph(d["description"]); set_font(para.runs[0])]. *)
Definition add_description (doc : list Paragraph) (it : item)
  : result (list Paragraph) :=
  match it !! "description" with
  | Some v =>
      if py_truthy (Some v)
      then let* text := text_of v in
           add_text_paragraph doc text None 11 false false
      else ret doc
  | None => ret doc
  end.

(** One turn of the loop over [experience]. *)
Definition render_experience_item (em_dash : string) (doc : list Paragraph)
    (e : item) : result (list Paragraph) :=
  let title_line :=
    get_str e "role" +:+ ", " +:+ get_str e "company" +:+ " " +:+ em_dash
    +:+ " " +:+ get_str e "duration" in
  let doc := add_run_paragraph doc title_line 11 true false in
  let* doc := add_description doc e in
  foldM (fun doc b =>
           add_text_paragraph doc ("- " +:+ b) (Some "List Bullet")
                              11 false false)
        (py_iter (default (VList []) (e !! "impact"))) doc.

(** One turn of the loop over [projects]. *)
Definition render_project_item (doc : list Paragraph) (p : item)
  : result (list Paragraph) :=
  let* name := text_of (default (VStr "") (p !! "name")) in
  let doc := add_run_paragraph doc name 11 true false in
  let* doc := add_description doc p in
  let tech := py_iter (default (VList []) (p !! "tech")) in
  match tech with
  | [] => ret doc
  | _ :: _ =>
      add_text_paragraph doc ("Tech: " +:+ py_join ", " tech) None
                         11 false false
  end.

(** A section: nothing for an empty list; else the heading, the items and
    a blank paragraph. *)
Definition render_section {A : Type} (title : string)
    (render_item : list Paragraph -> A -> result (list Paragraph))
    (l : list A) (doc : list Paragraph) : result (list Paragraph) :=
  match l with
  | [] => ret doc
  | _ :: _ =>
      let* doc := add_text_paragraph doc title None 12 true false in
      let* doc := foldM render_item l doc in
      ret (add_blank doc)
  end.

(** [render_word(kb, selected)]: the document that is saved.  [em_dash] is
    the string of the one character U+2014 of the source, which is no 8-bit
    character; it is put into the lines as it is. *)
Definition render_word (em_dash : string) (profile : Profile)
    (kb : KnowledgeBase) (selected : SelectionResult)
  : result (list Paragraph) :=
  let skills := sel_skills selected in
  let projects := sel_projects selected in
  let experience := sel_experience selected in
  let certs := sel_certs selected in
  let education := sel_education selected in
  let jd_tokens := sel_jd_tokens selected in
  let contact := kb_contact profile in
  let name := default "Your Name" (kb_name profile) in
  let doc : list Paragraph := [] in
  let doc := add_run_paragraph doc name 18 true true in
  let line := contact_line contact in
  let* doc :=
    if string_is_empty line then ret doc
    else add_text_paragraph doc line None 10 false true in
  let doc := add_blank doc in
  let summary := make_summary jd_tokens skills projects experience kb in
  let* doc :=
    if string_is_empty summary then ret doc
    else let* doc := add_text_paragraph doc "SUMMARY" None 12 true false in
         let* doc := add_text_paragraph doc summary None 11 false false in
         ret (add_blank doc) in
  let* doc :=
    match skills with
    | [] => ret doc
    | _ :: _ =>
        let* doc := add_text_paragraph doc "SKILLS" None 12 true false in
        let* doc := add_text_paragraph doc (py_join ", " skills) None
                                       11 false false in
        ret (add_blank doc)
    end in
  let* doc :=
    render_section "EXPERIENCE" (render_experience_item em_dash)
                   experience doc in
  let* doc :=
    render_section "EDUCATION"
      (fun doc ed =>
         ret (add_run_paragraph doc
                (entry_line em_dash ed "degree" "university" "Education")
                11 false false))
      education doc in
  let* doc := render_section "PROJECTS" render_project_item projects doc in
  render_section "CERTIFICATIONS"
    (fun doc c =>
       ret (add_run_paragraph doc
              (entry_line em_dash c "name" "issuer" "Certificate")
              11 false false))
    certs doc.

(** ** Command line *)

(** The five integer options of [main]'s parser. *)
Record Args : Type := {
  arg_skills : Z;
  arg_projects : Z;
  arg_experience : Z;
  arg_certs : Z;
  arg_education : Z
}.

(** The defaults of the parser: [--skills 15 --projects 5 --experience 4
    --certificates 7 --education 2]. *)
Definition default_args : Args :=
  {| arg_skills := 15; arg_projects := 5; arg_experience := 4;
     arg_certs := 7; arg_education := 2 |}.

(** The dictionary [limits] that [main] builds from the options. *)
Definition main_limits (args : Args) : gmap string Z :=
  {[ "skills" := arg_skills args;
     "projects" := arg_projects args;
     "experience" := arg_experience args;
     "certificates" := arg_certs args;
     "education" := arg_education args ]}.

(** The headings of a document: the texts of the paragraphs of one bold
    run of size 12. *)
Definition is_heading (p : Paragraph) : bool :=
  match par_runs p with
  | [r] => (run_size r =? 12)%nat && run_bold r
  | _ => false
  end.

Definition headings (doc : list Paragraph) : list string :=
  flat_map (fun p => if is_heading p then map run_text (par_runs p) else [])
           doc.

(** The heading a section contributes: none when the section has no item. *)
Definition section_heading {A : Type} (title : string) (l : list A)
  : list string :=
  match l with
  | [] => []
  | _ :: _ => [title]
  end.

(** [doc'] is [doc] with paragraphs added at its end, whose headings are
    [hs]. *)
Definition appends (hs : list string) (doc doc' : list Paragraph) : Prop :=
  exists suffix, doc' = (doc ++ suffix)%list /\ headings suffix = hs.

(** The value under [key] is no list (it is absent or a string). *)
Definition str_field (it : item) (key : string) : Prop :=
  match it !! key with
  | Some (VList _) => False
  | _ => True
  end.

(** ** Specification-side notions *)

(** The specification's reading of the tokenizer: the text is cut into
    separator stretches and runs of class characters, each run as long as it
    can be (a separator or the end of the text follows it, and a separator or
    the start precedes it). *)
Definition seps (s : string) : Prop :=
  string_forallb (fun c => negb (tok_char c)) s = true.

Definition toks (s : string) : Prop := string_forallb tok_char s = true.

Definition sep_or_end (s : string) : Prop :=
  match s with
  | EmptyString => True
  | String c _ => tok_char c = false
  end.

Inductive maximal_runs : string -> list string -> Prop :=
| runs_none sep :
    seps sep -> maximal_runs sep []
| runs_next sep t rest ts :
    seps sep -> toks t -> t <> "" -> sep_or_end rest ->
    maximal_runs rest ts ->
    maximal_runs (sep +:+ t +:+ rest) (t :: ts).

(** Order of the ranking: the key of the first is not below the key of the
    second. *)
Definition by_key_desc {A : Type} (x y : nat * A) : Prop := (y.1 <= x.1)%nat.

(** The list [scored] of [rank_section] after its filter: the items of
    positive score, each behind its score. *)
Definition scored_positive (jd_tokens : gset string) (fields : list string)
    (items : list item) : list (nat * item) :=
  filter (fun x => (0 < x.1)%nat)
         (map (fun it => (score_item jd_tokens it fields, it)) items).

(** Scores do not increase from an item to the next. *)
Definition scores_non_increasing (score : item -> nat) (out : list item)
  : Prop :=
  Sorted (fun a b => (score b <= score a)%nat) out.

(** Items of one score come in the order the input has them: the items of
    score [k] of the output are the first ones of the items of score [k] of
    the input. *)
Definition ties_in_input_order (score : item -> nat)
    (items out : list item) : Prop :=
  forall k : nat,
    filter (fun it => score it = k) out `prefix_of`
    filter (fun it => score it = k) items.

(** The specification's reading of the skills selection.  [dedup_first]
    keeps the first occurrence of every element, in order. *)
Fixpoint dedup_first (l : list string) : list string :=
  match l with
  | [] => []
  | x :: l' => x :: filter (fun y => y <> x) (dedup_first l')
  end.

Definition skills_two_pass (jd_tokens : gset string) (skills : list string)
    (limit : Z) : list string :=
  let pass1 := filter (fun s => py_lower s ∈ jd_tokens) skills in
  let pass2 :=
    if decide (Z.of_nat (length pass1) < limit)%Z
    then dedup_first
           (filter (fun s => (s ∉ pass1) /\
                             (list_to_set (normalize s) : gset string)
                               ∩ jd_tokens <> ∅) skills)
    else [] in
  py_slice_to (pass1 ++ pass2)%list limit.

(** ** Sample data *)

Definition sample_projects : list item :=
  [ {[ "name" := VStr "Notes"; "description" := VStr "A diary app";
       "tech" := VList ["Swift"] ]};
    {[ "name" := VStr "Ledger"; "description" := VStr "SQL reports in Go";
       "tech" := VList ["SQL"] ]};
    {[ "name" := VStr "Shop API"; "description" := VStr "REST backend";
       "tech" := VList ["Go"; "SQL"]; "tags" := VList ["Go"; "backend"] ]};
    {[ "name" := VStr "Billing"; "description" := VStr "SQL billing in Go";
       "tech" := VList ["SQL"] ]} ].

Definition item_name (it : item) : string :=
  py_str (default (VStr "") (it !! "name")).

Definition sample_experience : list item :=
  [ {[ "role" := VStr "Backend Engineer"; "company" := VStr "Acme";
       "description" := VStr "Go services and SQL tuning" ]} ].

Definition sample_education : list item :=
  [ {[ "school" := VStr "State University" ]};
    {[ "school" := VStr "City College" ]};
    {[ "school" := VStr "High School" ]} ].

Definition sample_kb : KnowledgeBase :=
  {| kb_skills := ["Go"; "Python"; "SQL"; "Node JS"];
     kb_projects := sample_projects;
     kb_experience := sample_experience;
     kb_certificates := [ {[ "name" := VStr "SQL Associate";
                             "issuer" := VStr "Vendor" ]} ];
     kb_education := sample_education |}.

Definition sample_jd : string := "Backend engineer with Go, SQL and Node".

Definition sample_limits : gmap string Z :=
  {[ "skills" := 2%Z; "projects" := 1%Z; "experience" := 3%Z;
     "certificates" := 3%Z; "education" := 2%Z ]}.

Definition sample_profile : Profile :=
  {| kb_name := Some "Ada Lovelace";
     kb_contact := {[ "email" := "ada@example.org";
                      "github" := "github.com/ada" ]} |}.

Definition anonymous_profile : Profile :=
  {| kb_name := None; kb_contact := ∅ |}.

(** A selection whose skills are the one empty string. *)
Definition empty_skill_selection : SelectionResult :=
  {| sel_skills := [""]; sel_projects := []; sel_experience := [];
     sel_certs := []; sel_education := []; sel_jd_tokens := ∅ |}.

(** A knowledge base that lists one skill twice. *)
Definition repeated_kb : KnowledgeBase :=
  {| kb_skills := ["Go"; "Go"];
     kb_projects := []; kb_experience := []; kb_certificates := [];
     kb_education := [] |}.

(** ** The model on concrete inputs *)

Example normalize_sample :
  normalize sample_jd =
  ["backend"; "engineer"; "with"; "go"; "sql"; "and"; "node"].
Proof. reflexivity. Qed.

Example py_str_list_sample :
  py_str (VList ["Go"; "it's"]) =
  String.concat "" ["['Go', "; String (ascii_of_nat 34) "it's";
                    String (ascii_of_nat 34) "]"].
Proof. reflexivity. Qed.

Example score_item_sample :
  map (fun it => score_item (tokenize sample_jd) it project_fields)
      sample_projects = [0; 3; 9; 3].
Proof. vm_compute. reflexivity. Qed.

Example rank_section_sample :
  map item_name
      (rank_section (tokenize sample_jd) sample_projects project_fields 10) =
  ["Shop API"; "Ledger"; "Billing"].
Proof. vm_compute. reflexivity. Qed.

Example select_skills_sample :
  select_skills (tokenize sample_jd) (kb_skills sample_kb) 10 =
  ["Go"; "SQL"; "Node JS"].
Proof. vm_compute. reflexivity. Qed.

Example py_slice_to_negative : py_slice_to [1; 2; 3; 4] (-1) = [1; 2; 3].
Proof. reflexivity. Qed.

(** ** The tokenizer *)

#[local] Arguments String.append : simpl nomatch.

Lemma string_app_assoc (a b c : string) : (a +:+ b) +:+ c = a +:+ b +:+ c.
Proof. induction a as [|x a IH]; simpl; [reflexivity | now rewrite IH]. Qed.

Lemma string_app_nil_r (a : string) : a +:+ "" = a.
Proof. induction a as [|x a IH]; simpl; [reflexivity | now rewrite IH]. Qed.

Lemma string_forallb_app p (a b : string) :
  string_forallb p (a +:+ b) = string_forallb p a && string_forallb p b.
Proof.
  induction a as [|x a IH]; simpl; [reflexivity |].
  now rewrite IH, andb_assoc.
Qed.

Lemma string_app_not_nil (a : string) (c : ascii) :
  a +:+ String c "" <> "".
Proof. destruct a; discriminate. Qed.

Lemma emit_nonempty (cur : string) (k : list string) :
  cur <> "" -> emit cur k = cur :: k.
Proof. destruct cur; [congruence | reflexivity]. Qed.

(** Scanning over a stretch of separators emits the match in progress. *)
Lemma findall_runs_seps (sep s : string) :
  seps sep -> findall_runs (sep +:+ s) "" = findall_runs s "".
Proof.
  unfold seps. induction sep as [|c sep IH]; simpl; [reflexivity |].
  intros H. apply andb_prop in H as [Hc Hs].
  destruct (tok_char c); [discriminate |]. now apply IH.
Qed.

(** Scanning over class characters extends the match in progress. *)
Lemma findall_runs_toks (t s cur : string) :
  toks t -> findall_runs (t +:+ s) cur = findall_runs s (cur +:+ t).
Proof.
  unfold toks. revert cur. induction t as [|c t IH]; simpl; intros cur H.
  - now rewrite string_app_nil_r.
  - apply andb_prop in H as [Hc Ht]. rewrite Hc, IH by assumption.
    now rewrite string_app_assoc.
Qed.

Lemma findall_runs_sep_or_end (rest cur : string) :
  sep_or_end rest -> cur <> "" ->
  findall_runs rest cur = cur :: findall_runs rest "".
Proof.
  intros Hr Hc. destruct rest as [|c rest]; simpl in *.
  - now rewrite emit_nonempty.
  - rewrite Hr. now rewrite emit_nonempty.
Qed.

Lemma maximal_runs_sep_cons (c : ascii) (s : string) (ts : list string) :
  tok_char c = false -> maximal_runs s ts -> maximal_runs (String c s) ts.
Proof.
  intros Hc H. destruct H as [sep Hs | sep t rest ts Hs Ht Hne Hr H].
  - apply runs_none. unfold seps in *. simpl. now rewrite Hc.
  - change (String c (sep +:+ t +:+ rest)) with (String c sep +:+ t +:+ rest).
    apply runs_next; try assumption. unfold seps in *. simpl. now rewrite Hc.
Qed.

Lemma findall_runs_maximal (s : string) :
  maximal_runs s (findall_runs s "") /\
  forall cur sep, toks cur -> cur <> "" -> seps sep ->
    maximal_runs (sep +:+ cur +:+ s) (findall_runs s cur).
Proof.
  induction s as [|c s [IH1 IH2]]; simpl.
  - split.
    + now apply runs_none.
    + intros cur sep Hc Hne Hs. rewrite emit_nonempty by assumption.
      apply runs_next; try assumption; [exact I | now apply runs_none].
  - destruct (tok_char c) eqn:Hc.
    + assert (Hone : toks (String c "")) by (unfold toks; simpl; now rewrite Hc).
      split.
      * apply (IH2 (String c "") ""); [assumption | discriminate | reflexivity].
      * intros cur sep Hcur Hne Hs.
        replace (sep +:+ cur +:+ String c s)
          with (sep +:+ (cur +:+ String c "") +:+ s)
          by (now rewrite (string_app_assoc cur)).
        apply IH2; [| apply string_app_not_nil | assumption].
        unfold toks in *. rewrite string_forallb_app, Hcur. exact Hone.
    + split.
      * now apply maximal_runs_sep_cons.
      * intros cur sep Hcur Hne Hs. rewrite emit_nonempty by assumption.
        apply runs_next; try assumption.
        now apply maximal_runs_sep_cons.
Qed.

Lemma maximal_runs_findall (s : string) (ts : list string) :
  maximal_runs s ts -> findall_runs s "" = ts.
Proof.
  induction 1 as [sep Hs | sep t rest ts Hs Ht Hne Hr H IH].
  - rewrite <- (string_app_nil_r sep). now rewrite findall_runs_seps.
  - rewrite findall_runs_seps, findall_runs_toks by assumption. simpl.
    rewrite findall_runs_sep_or_end by assumption. now rewrite IH.
Qed.

(** C9: [normalize] lower-cases its input and returns, in order, the maximal
    runs of characters of the class a-z, 0-9, plus, hash and dot, every other
    character being a separator: a list is the cut of the lower-cased text
    into maximal runs exactly when it is the result of [normalize].  In
    particular the text of the specification's scenario gives the three
    tokens c++, node.js and aws. *)
Theorem normalize_maximal_runs :
  (forall text ts, maximal_runs (py_lower text) ts <-> normalize text = ts) /\
  normalize "C++ Node.js, AWS!!" = ["c++"; "node.js"; "aws"].
Proof.
  split; [| reflexivity].
  intros text ts. unfold normalize. split.
  - apply maximal_runs_findall.
  - intros <-. apply findall_runs_maximal.
Qed.

(** ** The stable descending sort *)

Section SortDesc.
Context {A : Type}.
Implicit Types (x y : nat * A) (l : list (nat * A)).

Lemma insert_desc_perm x l : insert_desc x l ≡ₚ x :: l.
Proof.
  induction l as [|y l IH]; simpl; [reflexivity |].
  destruct (x.1 <? y.1)%nat; [| reflexivity].
  rewrite IH. apply perm_swap.
Qed.

Lemma sort_desc_perm l : sort_desc l ≡ₚ l.
Proof.
  induction l as [|x l IH]; simpl; [reflexivity |].
  rewrite insert_desc_perm. now rewrite IH.
Qed.

Lemma insert_desc_sorted x l :
  StronglySorted by_key_desc l -> StronglySorted by_key_desc (insert_desc x l).
Proof.
  induction l as [|y l IH]; simpl; intros Hl.
  - repeat constructor.
  - apply StronglySorted_inv in Hl as [Hl Hy].
    destruct (Nat.ltb_spec x.1 y.1) as [Hlt | Hge].
    + constructor; [now apply IH |].
      rewrite insert_desc_perm. constructor; [| assumption].
      unfold by_key_desc. lia.
    + constructor; [now constructor |].
      constructor; [exact Hge |].
      eapply Forall_impl; [exact Hy |].
      unfold by_key_desc. intros z Hz. lia.
Qed.

Lemma sort_desc_sorted l : StronglySorted by_key_desc (sort_desc l).
Proof.
  induction l as [|x l IH]; simpl; [constructor |].
  now apply insert_desc_sorted.
Qed.

(** Stability: among the elements of one key the order is the input's. *)
Lemma insert_desc_filter (k : nat) x l :
  filter (fun z => z.1 = k) (insert_desc x l) =
  filter (fun z => z.1 = k) (x :: l).
Proof.
  induction l as [|y l IH]; simpl; [reflexivity |].
  destruct (Nat.ltb_spec x.1 y.1) as [Hlt | Hge]; [| reflexivity].
  rewrite (filter_cons _ y), IH, !filter_cons.
  repeat case_decide; try reflexivity; lia.
Qed.

Lemma sort_desc_stable (k : nat) l :
  filter (fun z => z.1 = k) (sort_desc l) = filter (fun z => z.1 = k) l.
Proof.
  induction l as [|x l IH]; simpl; [reflexivity |].
  rewrite insert_desc_filter, !filter_cons. now rewrite IH.
Qed.
End SortDesc.

(** ** Slices *)

Lemma py_slice_to_take {A : Type} (l : list A) (n : Z) :
  exists k, py_slice_to l n = take k l.
Proof. unfold py_slice_to. destruct (0 <=? n)%Z; eexists; reflexivity. Qed.

Lemma py_slice_to_nonneg {A : Type} (l : list A) (n : Z) :
  (0 <= n)%Z -> py_slice_to l n = take (Z.to_nat n) l.
Proof.
  intros Hn. unfold py_slice_to.
  destruct (Z.leb_spec 0 n); [reflexivity | lia].
Qed.

Lemma py_slice_to_length {A : Type} (l : list A) (n : Z) :
  (0 <= n)%Z -> (Z.of_nat (length (py_slice_to l n)) <= n)%Z.
Proof.
  intros Hn. rewrite py_slice_to_nonneg, length_take by assumption. lia.
Qed.

Lemma py_slice_to_nil {A : Type} (n : Z) : py_slice_to (@nil A) n = [].
Proof. destruct (py_slice_to_take (@nil A) n) as [k ->]. apply take_nil. Qed.

(** ** Ranking *)

Section Ranking.
Variable jd_tokens : gset string.
Variable fields : list string.

Let score (it : item) : nat := score_item jd_tokens it fields.

Lemma rank_section_take (items : list item) (limit : Z) :
  exists k, rank_section jd_tokens items fields limit =
            map snd (take k (sort_desc (scored_positive jd_tokens fields items))).
Proof.
  unfold rank_section.
  destruct (py_slice_to_take
              (sort_desc (scored_positive jd_tokens fields items)) limit)
    as [k Hk].
  exists k. unfold scored_positive in *. now rewrite Hk.
Qed.

Lemma scored_positive_keys (items : list item) :
  Forall (fun x => x.1 = score x.2 /\ (0 < x.1)%nat)
         (scored_positive jd_tokens fields items).
Proof.
  unfold scored_positive.
  induction items as [|it items IH]; simpl; [constructor |].
  rewrite filter_cons. case_decide; [constructor |]; auto.
Qed.

Lemma scored_positive_snd (items : list item) :
  map snd (scored_positive jd_tokens fields items) =
  filter (fun it => (0 < score it)%nat) items.
Proof.
  unfold scored_positive.
  induction items as [|it items IH]; simpl; [reflexivity |].
  rewrite !filter_cons. simpl. fold (score it).
  case_decide; simpl; now rewrite IH.
Qed.

Lemma sorted_keys (items : list item) :
  Forall (fun x => x.1 = score x.2 /\ (0 < x.1)%nat)
         (sort_desc (scored_positive jd_tokens fields items)).
Proof. rewrite sort_desc_perm. apply scored_positive_keys. Qed.

Lemma filter_snd_keys (k : nat) (S : list (nat * item)) :
  Forall (fun x => x.1 = score x.2 /\ (0 < x.1)%nat) S ->
  filter (fun it => score it = k) (map snd S) =
  map snd (filter (fun x => x.1 = k) S).
Proof.
  induction 1 as [|x S [Hx _] _ IH]; simpl; [reflexivity |].
  rewrite !filter_cons, IH.
  repeat case_decide; try reflexivity; congruence.
Qed.

Lemma filter_score_positive_eq (k : nat) (items : list item) :
  filter (fun it => score it = k)
         (filter (fun it => (0 < score it)%nat) items) =
  if decide (k = 0) then [] else filter (fun it => score it = k) items.
Proof.
  induction items as [|it items IH]; simpl; [now case_decide |].
  rewrite !filter_cons.
  repeat case_decide; try rewrite filter_cons; repeat case_decide;
    try lia; try assumption; now rewrite IH.
Qed.

Lemma filter_score_positive (k : nat) (items : list item) :
  filter (fun it => score it = k)
         (filter (fun it => (0 < score it)%nat) items)
  `prefix_of` filter (fun it => score it = k) items.
Proof.
  rewrite filter_score_positive_eq. case_decide; [apply prefix_nil | reflexivity].
Qed.

Lemma prefix_map_snd (l1 l2 : list (nat * item)) :
  l1 `prefix_of` l2 -> map snd l1 `prefix_of` map snd l2.
Proof. intros [k ->]. rewrite map_app. now eexists. Qed.

Lemma prefix_filter_take (k n : nat) (S : list (nat * item)) :
  filter (fun x => x.1 = k) (take n S) `prefix_of`
  filter (fun x => x.1 = k) S.
Proof.
  rewrite <- (take_drop n S) at 2. rewrite filter_app. now eexists.
Qed.

Lemma rank_section_positive (items : list item) (limit : Z) :
  Forall (fun it => (0 < score it)%nat)
         (rank_section jd_tokens items fields limit).
Proof.
  destruct (rank_section_take items limit) as [k ->].
  apply List.Forall_map, Forall_take.
  eapply Forall_impl; [apply sorted_keys |].
  intros x [Hx Hpos]. simpl. now rewrite <- Hx.
Qed.

Lemma rank_section_non_increasing (items : list item) (limit : Z) :
  scores_non_increasing score (rank_section jd_tokens items fields limit).
Proof.
  destruct (rank_section_take items limit) as [k ->].
  unfold scores_non_increasing.
  apply StronglySorted_Sorted.
  apply (StronglySorted_fmap snd
           (fun x y : nat * item => score y.2 <= score x.2)
           (fun a b => score b <= score a)); [auto |].
  pose proof (sort_desc_sorted (scored_positive jd_tokens fields items)) as Hs.
  pose proof (sorted_keys items) as Hk.
  rewrite <- (take_drop k (sort_desc _)) in Hs, Hk.
  apply StronglySorted_app_1_l in Hs. apply Forall_app in Hk as [Hk _].
  induction Hs as [|x l Hl IH Hx]; [constructor |].
  apply Forall_cons in Hk as [[Hkx _] Hk].
  constructor; [now apply IH |].
  apply Forall_forall. intros y Hy.
  pose proof (proj1 (Forall_forall _ _) Hx y Hy) as Hxy.
  pose proof (proj1 (Forall_forall _ _) Hk y Hy) as [Hky _].
  unfold by_key_desc in Hxy. lia.
Qed.

Lemma rank_section_ties (items : list item) (limit : Z) :
  ties_in_input_order score items
    (rank_section jd_tokens items fields limit).
Proof.
  intros k. destruct (rank_section_take items limit) as [n ->].
  rewrite filter_snd_keys by (apply Forall_take, sorted_keys).
  etransitivity; [| apply filter_score_positive].
  rewrite <- scored_positive_snd.
  rewrite filter_snd_keys by apply scored_positive_keys.
  rewrite <- (sort_desc_stable k (scored_positive jd_tokens fields items)).
  apply prefix_map_snd, prefix_filter_take.
Qed.

Lemma rank_section_length (items : list item) (limit : Z) :
  (0 <= limit)%Z ->
  (Z.of_nat (length (rank_section jd_tokens items fields limit)) <= limit)%Z.
Proof.
  intros Hl. unfold rank_section. rewrite length_map.
  now apply py_slice_to_length.
Qed.
End Ranking.

(** ** Scores against an empty token set *)

Lemma fold_left_add_init {B : Type} (g : B -> nat) (l : list B) (a : nat) :
  fold_left (fun acc f => acc + g f) l a = a + fold_left (fun acc f => acc + g f) l 0.
Proof.
  revert a. induction l as [|f l IH]; simpl; intros a; [lia |].
  rewrite IH, (IH (g f)). lia.
Qed.

Lemma score_item_with_split (jd_tokens : gset string) (it : item)
    (fields : list string) (tags_field : string) :
  score_item_with jd_tokens it fields tags_field =
  tag_bonus jd_tokens (item_tags it tags_field) +
  fold_left (fun acc f => acc + field_bonus jd_tokens it f) fields 0.
Proof. unfold score_item_with. now rewrite fold_left_add_init. Qed.

Lemma tag_bonus_empty (tags : list string) : tag_bonus ∅ tags = 0.
Proof.
  unfold tag_bonus.
  now rewrite intersection_empty_r_L, size_empty.
Qed.

Lemma field_bonus_empty (it : item) (f : string) : field_bonus ∅ it f = 0.
Proof.
  unfold field_bonus. cbv zeta.
  now rewrite intersection_empty_r_L, size_empty.
Qed.

Lemma score_item_with_empty (it : item) (fields : list string)
    (tags_field : string) :
  score_item_with ∅ it fields tags_field = 0.
Proof.
  rewrite score_item_with_split, tag_bonus_empty. simpl.
  induction fields as [|f fields IH]; simpl; [reflexivity |].
  now rewrite field_bonus_empty.
Qed.

Lemma scored_positive_empty (fields : list string) (items : list item) :
  scored_positive ∅ fields items = [].
Proof.
  unfold scored_positive.
  induction items as [|it items IH]; simpl; [reflexivity |].
  rewrite filter_cons_False; [exact IH |].
  unfold score_item. rewrite score_item_with_empty. simpl. lia.
Qed.

Lemma rank_section_empty (items : list item) (fields : list string)
    (limit : Z) :
  rank_section ∅ items fields limit = [].
Proof.
  destruct (rank_section_take ∅ fields items limit) as [k ->].
  rewrite scored_positive_empty. simpl. now rewrite take_nil.
Qed.

Lemma tokenize_empty : tokenize "" = ∅.
Proof. reflexivity. Qed.

(** ** Skills *)

Section Skills.
Variable jd_tokens : gset string.

Lemma filter_dedup_first (R : string -> Prop) `{!forall x, Decision (R x)}
    (l : list string) :
  filter R (dedup_first l) = dedup_first (filter R l).
Proof.
  induction l as [|x l IH]; simpl; [reflexivity |].
  rewrite !filter_cons. case_decide as HR; simpl.
  - f_equal. rewrite <- IH, !list_filter_filter.
    apply list_filter_iff. tauto.
  - rewrite <- IH, list_filter_filter.
    apply list_filter_iff. intros y. split; [tauto |].
    intros Hy. split; [assumption | congruence].
Qed.

Lemma dedup_first_elem_of (x : string) (l : list string) :
  x ∈ dedup_first l <-> x ∈ l.
Proof.
  induction l as [|y l IH]; simpl; [reflexivity |].
  rewrite !elem_of_cons, list_elem_of_filter, IH.
  destruct (decide (x = y)); tauto.
Qed.

Lemma dedup_first_NoDup (l : list string) : NoDup (dedup_first l).
Proof.
  induction l as [|y l IH]; simpl; [constructor |].
  constructor; [| now apply NoDup_filter].
  rewrite list_elem_of_filter. tauto.
Qed.

Lemma skills_pass2_spec (skills matched : list string) :
  skills_pass2 jd_tokens skills matched =
  (matched ++
   dedup_first
     (filter (fun s => (s ∉ matched) /\
                       (list_to_set (normalize s) : gset string)
                         ∩ jd_tokens <> ∅) skills))%list.
Proof.
  unfold skills_pass2. revert matched.
  induction skills as [|x skills IH]; intros matched; simpl.
  - now rewrite app_nil_r.
  - rewrite IH, filter_cons. unfold skills_step.
    destruct (decide (x ∈ matched)) as [Hin | Hout].
    + rewrite decide_False by tauto. reflexivity.
    + case_decide as HQ.
      * rewrite decide_True by tauto. simpl.
        rewrite <- app_assoc. simpl. do 2 f_equal.
        rewrite filter_dedup_first, list_filter_filter. f_equal.
        apply list_filter_iff. intros s.
        rewrite not_elem_of_app, list_elem_of_singleton. tauto.
      * rewrite decide_False by tauto. reflexivity.
Qed.

Lemma select_skills_two_pass (skills : list string) (limit : Z) :
  select_skills jd_tokens skills limit =
  skills_two_pass jd_tokens skills limit.
Proof.
  unfold select_skills, skills_two_pass, skills_pass1.
  destruct (Z.ltb_spec (Z.of_nat (length (filter (fun s => py_lower s ∈ jd_tokens) skills))) limit).
  - rewrite decide_True by assumption. now rewrite skills_pass2_spec.
  - rewrite decide_False by lia. now rewrite app_nil_r.
Qed.
End Skills.

Lemma filter_none {B : Type} (P : B -> Prop) `{!forall x, Decision (P x)}
    (l : list B) :
  (forall x, ~ P x) -> filter P l = [].
Proof.
  intros HP. induction l as [|x l IH]; [reflexivity |].
  now rewrite filter_cons_False by apply HP.
Qed.

Lemma select_skills_subseteq (jd_tokens : gset string) (skills : list string)
    (limit : Z) :
  select_skills jd_tokens skills limit ⊆ skills.
Proof.
  rewrite select_skills_two_pass. unfold skills_two_pass. cbv zeta.
  destruct (py_slice_to_take
    (filter (fun s => py_lower s ∈ jd_tokens) skills ++
     (if decide (Z.of_nat (length (filter (fun s => py_lower s ∈ jd_tokens) skills)) < limit)%Z
      then dedup_first
             (filter (fun s => (s ∉ filter (fun s => py_lower s ∈ jd_tokens) skills) /\
                               (list_to_set (normalize s) : gset string)
                                 ∩ jd_tokens <> ∅) skills)
      else []))%list limit) as [k ->].
  etransitivity; [apply subseteq_take |].
  intros x. rewrite elem_of_app, list_elem_of_filter.
  intros [[_ Hx] | Hx]; [assumption |].
  case_decide.
  - apply dedup_first_elem_of, list_elem_of_filter in Hx. tauto.
  - now apply elem_of_nil in Hx.
Qed.

Lemma select_skills_NoDup (jd_tokens : gset string) (skills : list string)
    (limit : Z) :
  NoDup skills -> NoDup (select_skills jd_tokens skills limit).
Proof.
  intros Hnd. rewrite select_skills_two_pass. unfold skills_two_pass. cbv zeta.
  destruct (py_slice_to_take
    (filter (fun s => py_lower s ∈ jd_tokens) skills ++
     (if decide (Z.of_nat (length (filter (fun s => py_lower s ∈ jd_tokens) skills)) < limit)%Z
      then dedup_first
             (filter (fun s => (s ∉ filter (fun s => py_lower s ∈ jd_tokens) skills) /\
                               (list_to_set (normalize s) : gset string)
                                 ∩ jd_tokens <> ∅) skills)
      else []))%list limit) as [k ->].
  eapply sublist_NoDup; [| apply sublist_take].
  apply NoDup_app. split; [now apply NoDup_filter |]. split.
  - intros x Hx. case_decide; [| apply not_elem_of_nil].
    rewrite dedup_first_elem_of, list_elem_of_filter. tauto.
  - case_decide; [apply dedup_first_NoDup | constructor].
Qed.

Lemma select_skills_empty (skills : list string) (limit : Z) :
  select_skills ∅ skills limit = [].
Proof.
  rewrite select_skills_two_pass. unfold skills_two_pass. cbv zeta.
  rewrite (filter_none (fun s => py_lower s ∈ (∅ : gset string)))
    by (intros x; apply not_elem_of_empty).
  rewrite filter_none.
  - simpl. case_decide; apply py_slice_to_nil.
  - intros x [_ Hx]. apply Hx. apply intersection_empty_r_L.
Qed.

(** ** Ranked sections drawn from the knowledge base *)

Lemma rank_section_perm_take (jd_tokens : gset string) (fields : list string)
    (items : list item) (limit : Z) :
  exists k l, rank_section jd_tokens items fields limit = take k l /\
              l ≡ₚ filter (fun it => (0 < score_item jd_tokens it fields)%nat) items.
Proof.
  destruct (rank_section_take jd_tokens fields items limit) as [k Hk].
  exists k, (map snd (sort_desc (scored_positive jd_tokens fields items))).
  split.
  - rewrite Hk. apply (fmap_take snd).
  - rewrite <- scored_positive_snd.
    apply (fmap_Permutation snd), sort_desc_perm.
Qed.

Lemma rank_section_subseteq (jd_tokens : gset string) (fields : list string)
    (items : list item) (limit : Z) :
  rank_section jd_tokens items fields limit ⊆ items.
Proof.
  destruct (rank_section_perm_take jd_tokens fields items limit)
    as (k & l & -> & Hl).
  etransitivity; [apply subseteq_take |].
  intros x. rewrite Hl, list_elem_of_filter. tauto.
Qed.

Lemma rank_section_NoDup (jd_tokens : gset string) (fields : list string)
    (items : list item) (limit : Z) :
  NoDup items -> NoDup (rank_section jd_tokens items fields limit).
Proof.
  intros Hnd.
  destruct (rank_section_perm_take jd_tokens fields items limit)
    as (k & l & -> & Hl).
  eapply sublist_NoDup; [| apply sublist_take].
  rewrite Hl. now apply NoDup_filter.
Qed.

Lemma limit_get_nonneg (limits : gmap string Z) (key : string) (d : Z) :
  map_Forall (fun _ n => (0 <= n)%Z) limits -> (0 <= d)%Z ->
  (0 <= limit_get limits key d)%Z.
Proof.
  intros Hl Hd. unfold limit_get.
  destruct (limits !! key) as [n|] eqn:Hn; simpl; [| assumption].
  exact (Hl key n Hn).
Qed.

(** ** Properties of [select_relevant] *)

(** C2: with limits that are all non-negative, each of the five output
    sequences of [select_relevant] is at most as long as its limit (the
    entry of the limits, or the selector's default when the entry is
    absent). *)
Theorem select_relevant_quota (kb : KnowledgeBase) (jd_text : string)
    (limits : gmap string Z) :
  map_Forall (fun _ n => (0 <= n)%Z) limits ->
  let r := select_relevant kb jd_text limits in
  (Z.of_nat (length (sel_skills r)) <= limit_get limits "skills" 10)%Z /\
  (Z.of_nat (length (sel_projects r)) <= limit_get limits "projects" 3)%Z /\
  (Z.of_nat (length (sel_experience r)) <= limit_get limits "experience" 3)%Z /\
  (Z.of_nat (length (sel_certs r)) <= limit_get limits "certificates" 3)%Z /\
  (Z.of_nat (length (sel_education r)) <= limit_get limits "education" 2)%Z.
Proof.
  intros Hl. simpl. repeat split.
  - apply py_slice_to_length, limit_get_nonneg; [assumption | lia].
  - apply rank_section_length, limit_get_nonneg; [assumption | lia].
  - apply rank_section_length, limit_get_nonneg; [assumption | lia].
  - apply rank_section_length, limit_get_nonneg; [assumption | lia].
  - apply py_slice_to_length, limit_get_nonneg; [assumption | lia].
Qed.

Lemma sample_limits_nonneg : map_Forall (fun _ n => (0 <= n)%Z) sample_limits.
Proof.
  unfold sample_limits.
  repeat (apply map_Forall_insert_2; [lia |]).
  apply map_Forall_empty.
Defined.

Lemma select_relevant_quota_witness :
  let r := select_relevant sample_kb sample_jd sample_limits in
  (Z.of_nat (length (sel_skills r)) <= 2)%Z /\
  (Z.of_nat (length (sel_projects r)) <= 1)%Z /\
  (Z.of_nat (length (sel_experience r)) <= 3)%Z /\
  (Z.of_nat (length (sel_certs r)) <= 3)%Z /\
  (Z.of_nat (length (sel_education r)) <= 2)%Z.
Proof.
  exact (select_relevant_quota sample_kb sample_jd sample_limits
           sample_limits_nonneg).
Defined.

(** C3: no item of score 0 is in the ranked projects, experience or
    certificates of [select_relevant]: every item there has a positive score
    for the fields of its category against the tokens of the job
    description, whatever the limits are and however short the output is. *)
Theorem select_relevant_positive_scores (kb : KnowledgeBase)
    (jd_text : string) (limits : gmap string Z) :
  let r := select_relevant kb jd_text limits in
  let jd_tokens := tokenize jd_text in
  Forall (fun it => (0 < score_item jd_tokens it project_fields)%nat)
         (sel_projects r) /\
  Forall (fun it => (0 < score_item jd_tokens it experience_fields)%nat)
         (sel_experience r) /\
  Forall (fun it => (0 < score_item jd_tokens it certificate_fields)%nat)
         (sel_certs r).
Proof. simpl. repeat split; apply rank_section_positive. Qed.

(** C4: in each ranked output of [select_relevant] (projects, experience,
    certificates) the score does not increase from an item to the next, and
    the items of one score keep the order the knowledge base has them in:
    the sort is descending and stable. *)
Theorem select_relevant_stable_ranking (kb : KnowledgeBase)
    (jd_text : string) (limits : gmap string Z) :
  let r := select_relevant kb jd_text limits in
  let score fields := fun it => score_item (tokenize jd_text) it fields in
  (scores_non_increasing (score project_fields) (sel_projects r) /\
   ties_in_input_order (score project_fields) (kb_projects kb)
                       (sel_projects r)) /\
  (scores_non_increasing (score experience_fields) (sel_experience r) /\
   ties_in_input_order (score experience_fields) (kb_experience kb)
                       (sel_experience r)) /\
  (scores_non_increasing (score certificate_fields) (sel_certs r) /\
   ties_in_input_order (score certificate_fields) (kb_certificates kb)
                       (sel_certs r)).
Proof.
  simpl.
  repeat split; first [apply rank_section_non_increasing | apply rank_section_ties].
Qed.

(** C5: the skills of [select_relevant] are those of the two-pass selection
    of the specification: pass 1 keeps, in knowledge-base order, the skills
    whose lower-cased whole string is a token of the job description; pass 2
    runs only when pass 1 gave fewer skills than the limit and appends, in
    knowledge-base order, each skill not matched so far whose tokens meet
    those of the job description; the whole is cut to the limit.  For the
    skills Go, Python, C++, the job description of the scenario and the
    limit 2, the result is Python, C++. *)
Theorem select_relevant_skills_two_pass :
  (forall kb jd_text limits,
      sel_skills (select_relevant kb jd_text limits) =
      skills_two_pass (tokenize jd_text) (kb_skills kb)
                      (limit_get limits "skills" 10)) /\
  (forall projects experience certificates education,
      sel_skills (select_relevant
                    {| kb_skills := ["Go"; "Python"; "C++"];
                       kb_projects := projects;
                       kb_experience := experience;
                       kb_certificates := certificates;
                       kb_education := education |}
                    "experience with python and c++"
                    {[ "skills" := 2%Z ]}) = ["Python"; "C++"]).
Proof.
  split.
  - intros kb jd_text limits. apply select_skills_two_pass.
  - intros. reflexivity.
Qed.

(** C6, as the specification has it: every output element is in the
    knowledge-base collection of its category, and no output has a repeated
    element, also for a knowledge base that repeats one.  The selector removes
    no repetition of pass 1, of the ranked sections or of the education, so a
    skill listed twice and matched in pass 1 comes out twice. *)
Lemma select_relevant_repeats :
  ~ (forall kb jd_text limits,
       let r := select_relevant kb jd_text limits in
       (sel_skills r ⊆ kb_skills kb /\
        sel_projects r ⊆ kb_projects kb /\
        sel_experience r ⊆ kb_experience kb /\
        sel_certs r ⊆ kb_certificates kb /\
        sel_education r ⊆ kb_education kb) /\
       (NoDup (sel_skills r) /\ NoDup (sel_projects r) /\
        NoDup (sel_experience r) /\ NoDup (sel_certs r) /\
        NoDup (sel_education r))).
Proof.
  intros H. destruct (H repeated_kb "go" ∅) as [_ [Hnd _]].
  change (NoDup ["Go"; "Go"]) in Hnd.
  apply NoDup_cons in Hnd as [Hnotin _]. apply Hnotin. left.
Qed.

(** C6, amended: every element of every output category of
    [select_relevant] is an element of the knowledge-base collection of that
    category, and the output of a category has no repeated element when the
    knowledge-base collection of that category has none. *)
Theorem select_relevant_drawn_from_kb (kb : KnowledgeBase)
    (jd_text : string) (limits : gmap string Z) :
  let r := select_relevant kb jd_text limits in
  (sel_skills r ⊆ kb_skills kb /\
   sel_projects r ⊆ kb_projects kb /\
   sel_experience r ⊆ kb_experience kb /\
   sel_certs r ⊆ kb_certificates kb /\
   sel_education r ⊆ kb_education kb) /\
  (NoDup (kb_skills kb) -> NoDup (sel_skills r)) /\
  (NoDup (kb_projects kb) -> NoDup (sel_projects r)) /\
  (NoDup (kb_experience kb) -> NoDup (sel_experience r)) /\
  (NoDup (kb_certificates kb) -> NoDup (sel_certs r)) /\
  (NoDup (kb_education kb) -> NoDup (sel_education r)).
Proof.
  simpl. repeat split.
  - apply select_skills_subseteq.
  - apply rank_section_subseteq.
  - apply rank_section_subseteq.
  - apply rank_section_subseteq.
  - destruct (py_slice_to_take (kb_education kb)
                (limit_get limits "education" 2)) as [k ->].
    apply subseteq_take.
  - apply select_skills_NoDup.
  - apply rank_section_NoDup.
  - apply rank_section_NoDup.
  - apply rank_section_NoDup.
  - intros Hnd.
    destruct (py_slice_to_take (kb_education kb)
                (limit_get limits "education" 2)) as [k ->].
    eapply sublist_NoDup; [exact Hnd | apply sublist_take].
Qed.

Lemma select_relevant_drawn_from_kb_witness :
  let r := select_relevant sample_kb sample_jd sample_limits in
  NoDup (sel_skills r) /\ NoDup (sel_projects r) /\
  NoDup (sel_experience r) /\ NoDup (sel_certs r) /\
  NoDup (sel_education r).
Proof.
  destruct (select_relevant_drawn_from_kb sample_kb sample_jd sample_limits)
    as (_ & Hs & Hp & He & Hc & Hd).
  repeat split;
    [apply Hs | apply Hp | apply He | apply Hc | apply Hd];
    apply (bool_decide_unpack _); vm_compute; exact I.
Defined.

(** ** Tags *)

Lemma item_tags_lookup (it : item) (tags_field : string) (l : list string) :
  it !! tags_field = Some (VList l) ->
  item_tags it tags_field = map py_lower l.
Proof. intros H. unfold item_tags. now rewrite H. Qed.

Lemma item_tags_insert (it : item) (tags_field : string) (l : list string) :
  item_tags (<[tags_field := VList l]> it) tags_field = map py_lower l.
Proof. apply item_tags_lookup, lookup_insert_eq. Qed.

Lemma field_bonus_insert_ne (jd_tokens : gset string) (it : item)
    (k f : string) (v : value) :
  k <> f -> field_bonus jd_tokens (<[k := v]> it) f = field_bonus jd_tokens it f.
Proof. intros Hne. unfold field_bonus. now rewrite lookup_insert_ne. Qed.

Lemma fields_bonus_insert_ne (jd_tokens : gset string) (it : item)
    (k : string) (v : value) (fields : list string) :
  k ∉ fields ->
  fold_left (fun acc f => acc + field_bonus jd_tokens (<[k := v]> it) f) fields 0 =
  fold_left (fun acc f => acc + field_bonus jd_tokens it f) fields 0.
Proof.
  induction fields as [|f fields IH]; simpl; [reflexivity |].
  intros Hk. apply not_elem_of_cons in Hk as [Hne Hk].
  rewrite fold_left_add_init, (fold_left_add_init _ _ (field_bonus jd_tokens it f)).
  now rewrite IH, field_bonus_insert_ne.
Qed.

Lemma tag_bonus_matching (jd_tokens : gset string) (x : string)
    (l1 l2 : list string) :
  x ∈ jd_tokens -> x ∉ (l1 ++ l2)%list ->
  tag_bonus jd_tokens (l1 ++ x :: l2) = tag_bonus jd_tokens (l1 ++ l2) + 3.
Proof.
  intros Hin Hout. unfold tag_bonus.
  assert ((list_to_set (l1 ++ x :: l2) : gset string) ∩ jd_tokens =
          {[x]} ∪ (list_to_set (l1 ++ l2) : gset string) ∩ jd_tokens) as ->.
  { apply set_eq. intros y.
    rewrite elem_of_union, !elem_of_intersection, !elem_of_list_to_set,
      !elem_of_app, elem_of_cons, elem_of_singleton.
    split; [tauto |]. intros [-> | ?]; tauto. }
  rewrite size_union, size_singleton; [lia |].
  apply disjoint_singleton_l. rewrite elem_of_intersection, elem_of_list_to_set.
  tauto.
Qed.

Lemma tag_bonus_not_matching (jd_tokens : gset string) (x : string)
    (l1 l2 : list string) :
  x ∉ jd_tokens ->
  tag_bonus jd_tokens (l1 ++ x :: l2) = tag_bonus jd_tokens (l1 ++ l2).
Proof.
  intros Hout. unfold tag_bonus. do 2 f_equal.
  apply set_eq. intros y.
  rewrite !elem_of_intersection, !elem_of_list_to_set,
    !elem_of_app, elem_of_cons.
  split; [| tauto]. intros [[? | [-> | ?]] ?]; tauto.
Qed.

(** C7, as the specification has it: removing one tag whose lower-cased
    form is a token of the job description lowers the score by exactly 3.
    The tags go through a set, so a tag that is listed twice counts once and
    removing one of its occurrences leaves the score as it is. *)
Lemma tag_listed_twice :
  ~ (forall (jd_tokens : gset string) (fields : list string) (it : item)
            (l1 l2 : list string) (t : string),
       it !! "tags" = Some (VList (l1 ++ t :: l2)) ->
       py_lower t ∈ jd_tokens ->
       score_item jd_tokens it fields =
       score_item jd_tokens (<["tags" := VList (l1 ++ l2)]> it) fields + 3).
Proof.
  intros H.
  specialize (H {[ "go" ]} [] {[ "tags" := VList ["go"; "go"] ]}
                [] ["go"] "go" eq_refl).
  assert (Hin : py_lower "go" ∈ ({[ "go" ]} : gset string))
    by (now apply elem_of_singleton).
  specialize (H Hin). vm_compute in H. discriminate H.
Qed.

(** C7, amended: for every token set, field list that does not name the tag
    field, and item whose tag list has a tag whose lower-cased form is a
    token of the job description and is the lower-cased form of no other tag
    of the list, the score of the item is exactly 3 above the score of the
    item with that tag removed and every other field unchanged. *)
Theorem score_item_tag_weight (jd_tokens : gset string) (fields : list string)
    (tags_field : string) (it : item) (l1 l2 : list string) (t : string) :
  it !! tags_field = Some (VList (l1 ++ t :: l2)) ->
  py_lower t ∈ jd_tokens ->
  py_lower t ∉ map py_lower (l1 ++ l2) ->
  tags_field ∉ fields ->
  score_item_with jd_tokens it fields tags_field =
  score_item_with jd_tokens (<[tags_field := VList (l1 ++ l2)]> it)
                  fields tags_field + 3.
Proof.
  intros Htags Hin Hother Hfields.
  rewrite !score_item_with_split, fields_bonus_insert_ne by assumption.
  rewrite (item_tags_lookup _ _ _ Htags), item_tags_insert.
  rewrite !map_app in *. simpl.
  rewrite tag_bonus_matching by assumption. lia.
Qed.

Lemma score_item_tag_weight_witness :
  score_item (tokenize sample_jd)
             {[ "name" := VStr "Shop API";
                "tags" := VList ["Go"; "backend"; "REST"] ]}
             project_fields =
  score_item (tokenize sample_jd)
             (<["tags" := VList ["Go"; "REST"]]>
                {[ "name" := VStr "Shop API";
                   "tags" := VList ["Go"; "backend"; "REST"] ]})
             project_fields + 3.
Proof.
  apply (score_item_tag_weight (tokenize sample_jd) project_fields "tags"
           {[ "name" := VStr "Shop API";
              "tags" := VList ["Go"; "backend"; "REST"] ]}
           ["Go"] ["REST"] "backend").
  - reflexivity.
  - apply (bool_decide_unpack _); vm_compute; exact I.
  - apply (bool_decide_unpack _); vm_compute; exact I.
  - apply (bool_decide_unpack _); vm_compute; exact I.
Defined.

(** The tag field read as a text field: when the field list names the tag
    field, [str] of the tag list is scored as text as well, and a matching
    tag weighs 4. *)
Lemma tag_field_scored_as_text :
  score_item {[ "go" ]} {[ "tags" := VList ["Go"] ]} ["tags"] = 4 /\
  score_item {[ "go" ]} {[ "tags" := VList [] ]} ["tags"] = 0.
Proof. split; vm_compute; reflexivity. Qed.

(** ** Tokens and tags *)

Lemma maximal_runs_Forall (s : string) (ts : list string) :
  maximal_runs s ts -> Forall (fun t => toks t /\ t <> "") ts.
Proof. induction 1; constructor; auto. Qed.

Lemma tokenize_elem_of (text t : string) :
  t ∈ tokenize text -> toks t /\ t <> "".
Proof.
  unfold tokenize. rewrite elem_of_list_to_set. intros Hin.
  pose proof (maximal_runs_Forall _ _
                (proj1 (findall_runs_maximal (py_lower text)))) as Hall.
  exact (proj1 (Forall_forall _ _) Hall t Hin).
Qed.

Lemma toks_none_outside (t : string) :
  toks t -> string_existsb (fun c => negb (tok_char c)) t = false.
Proof.
  unfold toks. induction t as [|c t IH]; simpl; [reflexivity |].
  intros H. apply andb_prop in H as [Hc Ht]. now rewrite Hc, IH.
Qed.

Lemma normalize_single_token (t : string) :
  toks (py_lower t) -> py_lower t <> "" -> normalize t = [py_lower t].
Proof.
  intros Ht Hne. unfold normalize.
  rewrite <- (string_app_nil_r (py_lower t)) at 1.
  rewrite findall_runs_toks by assumption. simpl.
  now rewrite emit_nonempty.
Qed.

(** C10: for the tokens of any text, a tag whose lower-cased form has a
    character outside the class a-z, 0-9, plus, hash, dot (a tag of two
    words, for one) is no token of the text, so it adds nothing to the tag
    bonus of [score_item]: the bonus is that of the item without the tag.
    A tag earns the bonus only when its lower-cased form is itself one
    normalized token. *)
Theorem outside_class_tag_no_bonus (text : string) (it : item)
    (tags_field : string) (l1 l2 : list string) (t : string) :
  it !! tags_field = Some (VList (l1 ++ t :: l2)) ->
  string_existsb (fun c => negb (tok_char c)) (py_lower t) = true ->
  (py_lower t ∉ tokenize text) /\
  tag_bonus (tokenize text) (item_tags it tags_field) =
  tag_bonus (tokenize text)
            (item_tags (<[tags_field := VList (l1 ++ l2)]> it) tags_field) /\
  (forall t', py_lower t' ∈ tokenize text -> normalize t' = [py_lower t']).
Proof.
  intros Htags Hout.
  assert (Hnot : py_lower t ∉ tokenize text).
  { intros Hin. apply tokenize_elem_of in Hin as [Ht _].
    apply toks_none_outside in Ht. congruence. }
  split; [exact Hnot |]. split.
  - rewrite (item_tags_lookup _ _ _ Htags), item_tags_insert, !map_app.
    simpl. now apply tag_bonus_not_matching.
  - intros t' Hin. apply tokenize_elem_of in Hin as [Ht Hne].
    now apply normalize_single_token.
Qed.

Lemma outside_class_tag_no_bonus_witness :
  ("machine learning" ∉ tokenize "Python for machine learning") /\
  tag_bonus (tokenize "Python for machine learning")
            ["python"; "machine learning"] = 3 /\
  normalize "Python" = ["python"].
Proof.
  assert (Htags : ({[ "tags" := VList ["Python"; "Machine Learning"] ]} : item)
                    !! "tags" =
                  Some (VList (["Python"] ++ "Machine Learning" :: [])))
    by reflexivity.
  assert (Hout : string_existsb (fun c => negb (tok_char c))
                   (py_lower "Machine Learning") = true) by reflexivity.
  destruct (outside_class_tag_no_bonus "Python for machine learning"
              _ "tags" ["Python"] [] "Machine Learning" Htags Hout)
    as (Hnot & Hbonus & Hsingle).
  split; [exact Hnot |]. split.
  - change (tag_bonus (tokenize "Python for machine learning")
              (item_tags {[ "tags" := VList ["Python"; "Machine Learning"] ]}
                         "tags") = 3).
    rewrite Hbonus. vm_compute. reflexivity.
  - apply (Hsingle "Python").
    apply (bool_decide_unpack _); vm_compute; exact I.
Defined.

(** ** Empty job description *)

(** C8: the empty job description has no token, so every score is 0 and
    [select_relevant] returns no skill, project, experience item or
    certificate, for every knowledge base and limits; the education output is
    still the first N entries of the education list of the knowledge base,
    N being the education limit. *)
Theorem select_relevant_empty_jd (kb : KnowledgeBase) (limits : gmap string Z) :
  (0 <= limit_get limits "education" 2)%Z ->
  let r := select_relevant kb "" limits in
  tokenize "" = ∅ /\
  (forall it fields, score_item (tokenize "") it fields = 0) /\
  sel_skills r = [] /\ sel_projects r = [] /\ sel_experience r = [] /\
  sel_certs r = [] /\
  sel_education r =
    take (Z.to_nat (limit_get limits "education" 2)) (kb_education kb).
Proof.
  intros Hn. simpl. rewrite tokenize_empty. repeat split.
  - intros it fields. apply score_item_with_empty.
  - apply select_skills_empty.
  - apply rank_section_empty.
  - apply rank_section_empty.
  - apply rank_section_empty.
  - now apply py_slice_to_nonneg.
Qed.

Lemma select_relevant_empty_jd_witness :
  let r := select_relevant sample_kb "" sample_limits in
  sel_skills r = [] /\ sel_projects r = [] /\ sel_experience r = [] /\
  sel_certs r = [] /\
  sel_education r = [ {[ "school" := VStr "State University" ]};
                      {[ "school" := VStr "City College" ]} ].
Proof.
  assert (Hn : (0 <= limit_get sample_limits "education" 2)%Z)
    by (vm_compute; discriminate).
  destruct (select_relevant_empty_jd sample_kb sample_limits Hn)
    as (_ & _ & Hs & Hp & He & Hc & Hd).
  repeat split; try assumption.
Defined.

(** ** Summary *)

(** C1: in the scenario of the specification (tokens with go and sql, the
    skills Go and SQL, two projects, a first experience item whose role is
    Backend Engineer) [make_summary] returns the two parts joined by one
    space, and its first part has no period at its end: the result is not
    the string of the specification. *)
Theorem make_summary_scenario (jd_tokens : gset string) (p1 p2 e : item)
    (rest : list item) (kb : KnowledgeBase) :
  "go" ∈ jd_tokens -> "sql" ∈ jd_tokens ->
  e !! "role" = Some (VStr "Backend Engineer") ->
  make_summary jd_tokens ["Go"; "SQL"] [p1; p2] (e :: rest) kb =
    "Backend Engineer with hands-on work in go, sql Delivered 2 relevant project(s)." /\
  make_summary jd_tokens ["Go"; "SQL"] [p1; p2] (e :: rest) kb <>
    "Backend Engineer with hands-on work in go, sql. Delivered 2 relevant project(s).".
Proof.
  intros Hgo Hsql Hrole.
  assert (Heq : make_summary jd_tokens ["Go"; "SQL"] [p1; p2] (e :: rest) kb =
    "Backend Engineer with hands-on work in go, sql Delivered 2 relevant project(s).").
  { unfold make_summary. rewrite Hrole.
    assert (jd_tokens ∩ list_to_set (map py_lower ["Go"; "SQL"]) =
            (list_to_set ["go"; "sql"] : gset string)) as ->.
    { change (map py_lower ["Go"; "SQL"]) with ["go"; "sql"].
      apply set_eq. intros y.
      rewrite elem_of_intersection, elem_of_list_to_set, !elem_of_cons,
        elem_of_nil.
      split; [tauto |]. intros [-> | [-> | []]]; tauto. }
    vm_compute. reflexivity. }
  split; [exact Heq |]. rewrite Heq. discriminate.
Qed.

Lemma make_summary_scenario_witness :
  make_summary (tokenize "Go and SQL") ["Go"; "SQL"]
               [ {[ "name" := VStr "Shop API" ]};
                 {[ "name" := VStr "Ledger" ]} ]
               [ {[ "role" := VStr "Backend Engineer" ]} ] sample_kb =
  "Backend Engineer with hands-on work in go, sql Delivered 2 relevant project(s).".
Proof.
  assert (Hrole : ({[ "role" := VStr "Backend Engineer" ]} : item) !! "role" =
                  Some (VStr "Backend Engineer")) by reflexivity.
  refine (proj1 (make_summary_scenario (tokenize "Go and SQL")
                   {[ "name" := VStr "Shop API" ]}
                   {[ "name" := VStr "Ledger" ]}
                   {[ "role" := VStr "Backend Engineer" ]} [] sample_kb
                   _ _ Hrole));
    apply (bool_decide_unpack _); vm_compute; exact I.
Defined.

(** * Further properties of the engine *)

(** ** More on the tokenizer *)

Lemma py_lower_char_idemp (c : ascii) :
  py_lower_char (py_lower_char c) = py_lower_char c.
Proof. destruct c as [[] [] [] [] [] [] [] []]; vm_compute; reflexivity. Qed.

Lemma py_lower_idemp (s : string) : py_lower (py_lower s) = py_lower s.
Proof.
  induction s as [|c s IH]; simpl; [reflexivity |].
  now rewrite py_lower_char_idemp, IH.
Qed.

Lemma py_lower_char_tok (c : ascii) : tok_char c = true -> py_lower_char c = c.
Proof.
  destruct c as [[] [] [] [] [] [] [] []]; vm_compute; intros; congruence.
Qed.

Lemma py_lower_toks (t : string) : toks t -> py_lower t = t.
Proof.
  unfold toks. induction t as [|c t IH]; simpl; [reflexivity |].
  intros H. apply andb_prop in H as [Hc Ht].
  now rewrite py_lower_char_tok, IH.
Qed.

Lemma py_lower_app (a b : string) :
  py_lower (a +:+ b) = py_lower a +:+ py_lower b.
Proof. induction a as [|c a IH]; simpl; [reflexivity | now rewrite IH]. Qed.

Lemma emit_app (cur : string) (k : list string) :
  emit cur k = (emit cur [] ++ k)%list.
Proof. destruct cur; reflexivity. Qed.

Lemma findall_runs_split (a b cur : string) (c : ascii) :
  tok_char c = false ->
  findall_runs (a +:+ String c b) cur =
  (findall_runs a cur ++ findall_runs b "")%list.
Proof.
  intros Hc. revert cur. induction a as [|x a IH]; intros cur; simpl.
  - rewrite Hc. apply emit_app.
  - destruct (tok_char x); [apply IH |].
    rewrite IH, (emit_app cur (findall_runs a "")), (emit_app cur (_ ++ _)).
    now rewrite app_assoc.
Qed.

(** X1: every token that [normalize] returns is non-empty, has only
    characters of the class, and is a fixed point of the tokenizer:
    normalizing the token gives the token alone. *)
Theorem normalize_tokens_fixed (text : string) :
  Forall (fun t => t <> "" /\ string_forallb tok_char t = true /\
                   normalize t = [t])
         (normalize text).
Proof.
  pose proof (maximal_runs_Forall _ _
                (proj1 (findall_runs_maximal (py_lower text)))) as Hall.
  eapply Forall_impl; [exact Hall |].
  intros t [Ht Hne]. split; [assumption |]. split; [exact Ht |].
  rewrite <- (py_lower_toks t Ht) at 2.
  apply normalize_single_token; now rewrite py_lower_toks.
Qed.

(** X2: a character that is a separator after lower-casing cuts the text for
    the tokenizer: the tokens of the whole are the tokens of the part before
    it followed by the tokens of the part after it. *)
Theorem normalize_separator (a b : string) (c : ascii) :
  tok_char (py_lower_char c) = false ->
  normalize (a +:+ String c b) = (normalize a ++ normalize b)%list.
Proof.
  intros Hc. unfold normalize. rewrite py_lower_app. simpl.
  now apply findall_runs_split.
Qed.

Lemma normalize_separator_witness :
  normalize ("Node.js" +:+ String " " "C#") = ["node.js"; "c#"].
Proof.
  apply (normalize_separator "Node.js" "C#" " "). reflexivity.
Defined.

(** X3: [normalize] returns no token exactly for the texts that hold, after
    lower-casing, no character of the class: the empty text, blanks,
    punctuation. *)
Theorem normalize_nil_iff (text : string) :
  normalize text = [] <->
  string_forallb (fun c => negb (tok_char c)) (py_lower text) = true.
Proof.
  split.
  - intros Hn.
    pose proof (proj1 (findall_runs_maximal (py_lower text))) as Hm.
    fold (normalize text) in Hm. rewrite Hn in Hm.
    inversion Hm; subst. assumption.
  - intros Hs. apply maximal_runs_findall. now apply runs_none.
Qed.

Lemma normalize_lower (a : string) : normalize (py_lower a) = normalize a.
Proof. unfold normalize. now rewrite py_lower_idemp. Qed.

(** X4: [normalize] does not depend on the case of its input: lower-casing
    the text first, as [score_item] does, changes nothing, and two texts that
    differ in case only have the same tokens. *)
Theorem normalize_case_insensitive (a b : string) :
  normalize (py_lower a) = normalize a /\
  (py_lower a = py_lower b -> normalize a = normalize b).
Proof.
  split.
  - apply normalize_lower.
  - unfold normalize. now intros ->.
Qed.

Lemma normalize_case_insensitive_witness :
  normalize "NODE.JS and C++" = normalize "node.js AND c++".
Proof.
  apply (normalize_case_insensitive "NODE.JS and C++" "node.js AND c++").
  reflexivity.
Defined.

(** ** More on the scorer *)

Lemma fields_bonus_zero_iff (jd_tokens : gset string) (it : item)
    (fields : list string) :
  fold_left (fun acc f => acc + field_bonus jd_tokens it f) fields 0 = 0 <->
  Forall (fun f => field_bonus jd_tokens it f = 0) fields.
Proof.
  induction fields as [|f fields IH]; simpl.
  - split; [constructor | reflexivity].
  - rewrite fold_left_add_init, Forall_cons, <- IH. lia.
Qed.

Lemma inter_size_zero_iff (l : list string) (jd_tokens : gset string) :
  size ((list_to_set l : gset string) ∩ jd_tokens) = 0 <->
  forall t, t ∈ l -> t ∉ jd_tokens.
Proof.
  rewrite size_empty_iff. split.
  - intros He t Ht Hin.
    assert (Hx : t ∈ (list_to_set l : gset string) ∩ jd_tokens)
      by (apply elem_of_intersection; split;
          [now apply elem_of_list_to_set | assumption]).
    rewrite He in Hx. now apply elem_of_empty in Hx.
  - intros Hall. apply elem_of_equiv_empty. intros t Ht.
    apply elem_of_intersection in Ht as [Ht Hin].
    apply elem_of_list_to_set in Ht. exact (Hall t Ht Hin).
Qed.

Lemma inter_size_mono (l : list string) (jd1 jd2 : gset string) :
  jd1 ⊆ jd2 ->
  size ((list_to_set l : gset string) ∩ jd1) <=
  size ((list_to_set l : gset string) ∩ jd2).
Proof.
  intros Hsub. apply subseteq_size. intros t Ht.
  apply elem_of_intersection in Ht as [Ht Hin].
  apply elem_of_intersection. split; [assumption | now apply Hsub].
Qed.

(** X5: a larger token set never lowers a score: when every token of one
    job description is a token of another, the score of any item against the
    first is at most its score against the second. *)
Theorem score_item_mono (jd1 jd2 : gset string) (it : item)
    (fields : list string) (tags_field : string) :
  jd1 ⊆ jd2 ->
  score_item_with jd1 it fields tags_field <=
  score_item_with jd2 it fields tags_field.
Proof.
  intros Hsub. rewrite !score_item_with_split.
  apply Nat.add_le_mono.
  - unfold tag_bonus. pose proof (inter_size_mono (item_tags it tags_field)
                                    jd1 jd2 Hsub). lia.
  - induction fields as [|f fields IH]; simpl; [lia |].
    rewrite fold_left_add_init,
      (fold_left_add_init _ _ (field_bonus jd2 it f)).
    apply Nat.add_le_mono; [| exact IH].
    unfold field_bonus. now apply inter_size_mono.
Qed.

Lemma score_item_mono_witness :
  score_item (tokenize "go") {[ "name" := VStr "Go and SQL" ]} ["name"] <=
  score_item (tokenize "go sql") {[ "name" := VStr "Go and SQL" ]} ["name"].
Proof.
  apply (score_item_mono (tokenize "go") (tokenize "go sql")).
  apply (bool_decide_unpack _); vm_compute; exact I.
Defined.

(** X6: the score of an item is 0 exactly when there is no lexical overlap:
    no lower-cased tag of the item is a token of the job description, and no
    token of [str] of any scored field is one. *)
Theorem score_item_zero_iff (jd_tokens : gset string) (it : item)
    (fields : list string) (tags_field : string) :
  score_item_with jd_tokens it fields tags_field = 0 <->
  (forall t, t ∈ item_tags it tags_field -> t ∉ jd_tokens) /\
  (forall f t, f ∈ fields ->
               t ∈ normalize (py_str (default (VStr "") (it !! f))) ->
               t ∉ jd_tokens).
Proof.
  rewrite score_item_with_split.
  rewrite <- inter_size_zero_iff.
  assert (Hf : fold_left (fun acc f => acc + field_bonus jd_tokens it f)
                         fields 0 = 0 <->
               forall f t, f ∈ fields ->
                 t ∈ normalize (py_str (default (VStr "") (it !! f))) ->
                 t ∉ jd_tokens).
  { rewrite fields_bonus_zero_iff, Forall_forall.
    split; intros H f.
    - intros t Hin. specialize (H f Hin). unfold field_bonus in H.
      cbv zeta in H. rewrite inter_size_zero_iff in H.
      rewrite normalize_lower in H. apply H.
    - intros Hin. unfold field_bonus. cbv zeta.
      rewrite inter_size_zero_iff.
      rewrite normalize_lower.
      intros t. now apply H. }
  rewrite <- Hf. unfold tag_bonus. lia.
Qed.

(** X7: the order of the field list does not matter to the score (each
    occurrence of a field name counts once). *)
Theorem score_item_fields_perm (jd_tokens : gset string) (it : item)
    (fields1 fields2 : list string) (tags_field : string) :
  fields1 ≡ₚ fields2 ->
  score_item_with jd_tokens it fields1 tags_field =
  score_item_with jd_tokens it fields2 tags_field.
Proof.
  intros Hp. rewrite !score_item_with_split. f_equal.
  induction Hp as [|f l1 l2 Hp IH|f g l|l1 l2 l3 Hp1 IH1 Hp2 IH2]; simpl.
  - reflexivity.
  - rewrite fold_left_add_init,
      (fold_left_add_init _ l2 (0 + field_bonus jd_tokens it f)).
    now rewrite IH.
  - f_equal. lia.
  - now rewrite IH1.
Qed.

Lemma score_item_fields_perm_witness :
  score_item (tokenize sample_jd) {[ "name" := VStr "Go"; "tech" := VList ["SQL"] ]}
             ["description"; "name"; "tech"] =
  score_item (tokenize sample_jd) {[ "name" := VStr "Go"; "tech" := VList ["SQL"] ]}
             ["tech"; "description"; "name"].
Proof.
  apply (score_item_fields_perm (tokenize sample_jd) _
           ["description"; "name"; "tech"] ["tech"; "description"; "name"]).
  apply (bool_decide_unpack _); vm_compute; exact I.
Defined.

(** ** More on the ranking *)

Lemma sorted_scored_length (jd_tokens : gset string) (fields : list string)
    (items : list item) :
  length (sort_desc (scored_positive jd_tokens fields items)) =
  length (filter (fun it => (0 < score_item jd_tokens it fields)%nat) items).
Proof. now rewrite sort_desc_perm, <- scored_positive_snd, length_map. Qed.

Lemma rank_section_nonneg (jd_tokens : gset string) (fields : list string)
    (items : list item) (limit : Z) :
  (0 <= limit)%Z ->
  rank_section jd_tokens items fields limit =
  map snd (take (Z.to_nat limit)
                (sort_desc (scored_positive jd_tokens fields items))).
Proof.
  intros Hl. unfold rank_section. now rewrite py_slice_to_nonneg.
Qed.

Lemma rank_section_full (jd_tokens : gset string) (fields : list string)
    (items : list item) (limit : Z) :
  (Z.of_nat (length (filter (fun it => (0 < score_item jd_tokens it fields)%nat)
                            items)) <= limit)%Z ->
  rank_section jd_tokens items fields limit =
  map snd (sort_desc (scored_positive jd_tokens fields items)).
Proof.
  intros Hl. rewrite rank_section_nonneg by lia.
  rewrite take_ge; [reflexivity |]. rewrite sorted_scored_length. lia.
Qed.

(** X8: for a non-negative limit the ranked output has exactly
    min(limit, number of items of positive score) items: the quota is filled
    whenever enough items qualify. *)
Theorem rank_section_length_exact (jd_tokens : gset string)
    (fields : list string) (items : list item) (limit : Z) :
  (0 <= limit)%Z ->
  length (rank_section jd_tokens items fields limit) =
  Nat.min (Z.to_nat limit)
          (length (filter (fun it => (0 < score_item jd_tokens it fields)%nat)
                          items)).
Proof.
  intros Hl. rewrite rank_section_nonneg by assumption.
  now rewrite length_map, length_take, sorted_scored_length.
Qed.

Lemma rank_section_length_exact_witness :
  length (rank_section (tokenize sample_jd) sample_projects project_fields 2) = 2.
Proof.
  rewrite (rank_section_length_exact (tokenize sample_jd) project_fields
             sample_projects 2); [| lia].
  vm_compute. reflexivity.
Defined.

(** X9: when the limit is at least the number of items of positive score,
    the ranked output is a rearrangement of exactly those items: none is
    lost and none is added. *)
Theorem rank_section_all_positive (jd_tokens : gset string)
    (fields : list string) (items : list item) (limit : Z) :
  (Z.of_nat (length (filter (fun it => (0 < score_item jd_tokens it fields)%nat)
                            items)) <= limit)%Z ->
  rank_section jd_tokens items fields limit ≡ₚ
  filter (fun it => (0 < score_item jd_tokens it fields)%nat) items.
Proof.
  intros Hl. rewrite rank_section_full by assumption.
  rewrite <- scored_positive_snd.
  apply (fmap_Permutation snd), sort_desc_perm.
Qed.

Lemma rank_section_all_positive_witness :
  rank_section (tokenize sample_jd) sample_projects project_fields 3 ≡ₚ
  filter (fun it => (0 < score_item (tokenize sample_jd) it project_fields)%nat)
         sample_projects.
Proof.
  apply rank_section_all_positive. vm_compute. discriminate.
Defined.

(** X10: the ranked output holds the best items: an item of the input that
    is not in the output scores no higher than any item that is, whatever the
    limit. *)
Theorem rank_section_keeps_best (jd_tokens : gset string)
    (fields : list string) (items : list item) (limit : Z) (x y : item) :
  x ∈ rank_section jd_tokens items fields limit ->
  y ∈ items ->
  y ∉ rank_section jd_tokens items fields limit ->
  score_item jd_tokens y fields <= score_item jd_tokens x fields.
Proof.
  destruct (rank_section_take jd_tokens fields items limit) as [k ->].
  intros Hx Hy Hny.
  destruct (decide (0 < score_item jd_tokens y fields)) as [Hpos | ]; [| lia].
  apply (list_elem_of_fmap_1 snd) in Hx as [px [-> Hpx]].
  assert (Hsy : (score_item jd_tokens y fields, y) ∈
                sort_desc (scored_positive jd_tokens fields items)).
  { rewrite sort_desc_perm. unfold scored_positive.
    apply list_elem_of_filter. split; [exact Hpos |].
    now apply (list_elem_of_fmap_2
                 (fun it => (score_item jd_tokens it fields, it))). }
  pose proof (sort_desc_sorted (scored_positive jd_tokens fields items)) as Hs.
  pose proof (sorted_keys jd_tokens fields items) as Hk.
  rewrite <- (take_drop k (sort_desc _)) in Hsy, Hs, Hk.
  apply elem_of_app in Hsy as [Hin | Hin].
  - exfalso. apply Hny.
    now apply (list_elem_of_fmap_2 snd _ (score_item jd_tokens y fields, y)).
  - pose proof (StronglySorted_app_1_elem_of _ _ _ _ _ Hs Hpx Hin) as Hle.
    apply Forall_app in Hk as [Hk _].
    destruct (proj1 (Forall_forall _ _) Hk px Hpx) as [Hkx _].
    unfold by_key_desc in Hle. simpl in Hle. lia.
Qed.

(** X11: a negative limit does not empty a ranked section: with the limit
    [-k] the output is the whole ranking without its last [k] items. *)
Theorem rank_section_negative_limit (jd_tokens : gset string)
    (fields : list string) (items : list item) (limit : Z) :
  (limit < 0)%Z ->
  let full := rank_section jd_tokens items fields (Z.of_nat (length items)) in
  rank_section jd_tokens items fields limit =
  take (length full - Z.to_nat (- limit)) full.
Proof.
  intros Hl.
  assert (Hfull : rank_section jd_tokens items fields (Z.of_nat (length items)) =
                  map snd (sort_desc (scored_positive jd_tokens fields items))).
  { apply rank_section_full.
    pose proof (length_filter
                  (fun it => (0 < score_item jd_tokens it fields)%nat) items).
    lia. }
  cbv zeta. rewrite Hfull, length_map.
  unfold rank_section. fold (scored_positive jd_tokens fields items).
  unfold py_slice_to. destruct (Z.leb_spec 0 limit); [lia |].
  rewrite <- (fmap_take snd). do 2 f_equal. lia.
Qed.

Lemma rank_section_negative_limit_witness :
  map item_name
      (rank_section (tokenize sample_jd) sample_projects project_fields (-1)) =
  ["Shop API"; "Ledger"].
Proof.
  rewrite (rank_section_negative_limit (tokenize sample_jd) project_fields
             sample_projects (-1)); [| lia].
  vm_compute. reflexivity.
Defined.

(** X12: raising a non-negative limit only adds items at the end: the
    ranked output for a limit is a prefix of the output for any larger one. *)
Theorem rank_section_limit_prefix (jd_tokens : gset string)
    (fields : list string) (items : list item) (n m : Z) :
  (0 <= n)%Z -> (n <= m)%Z ->
  rank_section jd_tokens items fields n `prefix_of`
  rank_section jd_tokens items fields m.
Proof.
  intros Hn Hm. rewrite !rank_section_nonneg by lia.
  apply prefix_map_snd.
  replace (Z.to_nat n) with (Nat.min (Z.to_nat n) (Z.to_nat m)) by lia.
  rewrite <- take_take. apply prefix_take.
Qed.

Lemma rank_section_limit_prefix_witness :
  rank_section (tokenize sample_jd) sample_projects project_fields 1
  `prefix_of`
  rank_section (tokenize sample_jd) sample_projects project_fields 3.
Proof. apply rank_section_limit_prefix; lia. Defined.

Lemma rank_section_keeps_best_witness :
  score_item (tokenize sample_jd)
             {[ "name" := VStr "Ledger"; "description" := VStr "SQL reports in Go";
                "tech" := VList ["SQL"] ]} project_fields <=
  score_item (tokenize sample_jd)
             {[ "name" := VStr "Shop API"; "description" := VStr "REST backend";
                "tech" := VList ["Go"; "SQL"];
                "tags" := VList ["Go"; "backend"] ]} project_fields.
Proof.
  apply (rank_section_keeps_best (tokenize sample_jd) project_fields
           sample_projects 1);
    apply (bool_decide_unpack _); vm_compute; exact I.
Defined.

(** ** More on the skills *)

Lemma select_skills_nonneg (jd_tokens : gset string) (skills : list string)
    (limit : Z) :
  (0 <= limit)%Z ->
  select_skills jd_tokens skills limit =
  take (Z.to_nat limit)
       (skills_pass2 jd_tokens skills (skills_pass1 jd_tokens skills)).
Proof.
  intros Hl. unfold select_skills.
  destruct (Z.ltb_spec (Z.of_nat (length (skills_pass1 jd_tokens skills))) limit).
  - now apply py_slice_to_nonneg.
  - rewrite py_slice_to_nonneg, skills_pass2_spec by assumption.
    rewrite take_app_le by lia. reflexivity.
Qed.

Lemma skills_pass1_shares (text s : string) :
  py_lower s ∈ tokenize text ->
  (list_to_set (normalize s) : gset string) ∩ tokenize text <> ∅.
Proof.
  intros Hin Hempty.
  destruct (tokenize_elem_of _ _ Hin) as [Ht Hne].
  rewrite (normalize_single_token s Ht Hne) in Hempty.
  assert (Hx : py_lower s ∈
               (list_to_set [py_lower s] : gset string) ∩ tokenize text).
  { apply elem_of_intersection. split; [| assumption].
    apply elem_of_list_to_set. left. }
  rewrite Hempty in Hx. now apply elem_of_empty in Hx.
Qed.

(** X13: for a non-negative limit the test before pass 2 changes nothing:
    the selected skills are the first [limit] of pass 1 followed by pass 2,
    so raising the limit only adds skills at the end. *)
Theorem select_skills_limit_prefix (jd_tokens : gset string)
    (skills : list string) (n m : Z) :
  (0 <= n)%Z -> (n <= m)%Z ->
  select_skills jd_tokens skills n =
    take (Z.to_nat n)
         (skills_pass2 jd_tokens skills (skills_pass1 jd_tokens skills)) /\
  select_skills jd_tokens skills n `prefix_of`
  select_skills jd_tokens skills m.
Proof.
  intros Hn Hm. split; [now apply select_skills_nonneg |].
  rewrite !select_skills_nonneg by lia.
  replace (Z.to_nat n) with (Nat.min (Z.to_nat n) (Z.to_nat m)) by lia.
  rewrite <- take_take. apply prefix_take.
Qed.

Lemma select_skills_limit_prefix_witness :
  select_skills (tokenize sample_jd) (kb_skills sample_kb) 2 `prefix_of`
  select_skills (tokenize sample_jd) (kb_skills sample_kb) 10.
Proof.
  apply (select_skills_limit_prefix (tokenize sample_jd)
           (kb_skills sample_kb) 2 10); lia.
Defined.

Lemma select_skills_shares (text : string) (skills : list string)
    (limit : Z) (s : string) :
  s ∈ select_skills (tokenize text) skills limit ->
  (list_to_set (normalize s) : gset string) ∩ tokenize text <> ∅.
Proof.
  rewrite select_skills_two_pass. unfold skills_two_pass. cbv zeta.
  match goal with
  | |- s ∈ py_slice_to ?X limit -> _ =>
      destruct (py_slice_to_take X limit) as [k ->]
  end.
  intros Hs. apply subseteq_take in Hs.
  apply elem_of_app in Hs as [Hs | Hs].
  - apply list_elem_of_filter in Hs as [Hs _].
    now apply skills_pass1_shares.
  - case_decide; [| now apply elem_of_nil in Hs].
    apply dedup_first_elem_of, list_elem_of_filter in Hs. tauto.
Qed.

(** X14: against the tokens of a job description, every selected skill is a
    skill of the knowledge base that shares a token with the job
    description; and when the output is shorter than the limit, every such
    skill is selected. *)
Theorem select_skills_sound_complete (text : string) (skills : list string)
    (limit : Z) :
  let shares s := (list_to_set (normalize s) : gset string) ∩ tokenize text <> ∅ in
  let out := select_skills (tokenize text) skills limit in
  (forall s, s ∈ out -> s ∈ skills /\ shares s) /\
  ((Z.of_nat (length out) < limit)%Z ->
   forall s, s ∈ skills -> shares s -> s ∈ out).
Proof.
  cbv zeta. split.
  - intros s Hs. split; [exact (select_skills_subseteq _ _ _ s Hs) |].
    now apply (select_skills_shares text skills limit).
  - intros Hlen s Hs Hshare.
    assert (Hl : (0 <= limit)%Z) by lia.
    rewrite select_skills_nonneg in * by assumption.
    rewrite length_take in Hlen.
    rewrite take_ge by lia. rewrite skills_pass2_spec.
    apply elem_of_app.
    destruct (decide (s ∈ skills_pass1 (tokenize text) skills)) as [Hin | Hout];
      [now left | right].
    apply dedup_first_elem_of, list_elem_of_filter. tauto.
Qed.

Lemma select_skills_sound_complete_witness :
  "Node JS" ∈ select_skills (tokenize sample_jd) (kb_skills sample_kb) 10.
Proof.
  apply (proj2 (select_skills_sound_complete sample_jd (kb_skills sample_kb) 10)).
  - vm_compute. reflexivity.
  - apply (bool_decide_unpack _); vm_compute; exact I.
  - apply (bool_decide_unpack _); vm_compute; exact I.
Defined.

(** ** More on the summary *)

Lemma string_app_eq_nil (a b : string) : a +:+ b = "" -> a = "" /\ b = "".
Proof. destruct a; simpl; [auto | discriminate]. Qed.

Lemma py_join_nonempty (sep x : string) (l : list string) :
  x <> "" -> py_join sep (x :: l) <> "".
Proof.
  intros Hx. destruct l as [|y l]; simpl; [assumption |].
  intros H. apply string_app_eq_nil in H. tauto.
Qed.

Lemma string_app_literal_nonempty (a lit b : string) :
  lit <> "" -> a +:+ lit +:+ b <> "".
Proof.
  intros Hl H. apply string_app_eq_nil in H as [_ H].
  apply string_app_eq_nil in H. tauto.
Qed.

(** X15: the summary is the empty string exactly when there is neither an
    experience item nor a project (the renderer then leaves the section
    out). *)
Theorem make_summary_empty_iff (jd_tokens : gset string)
    (skills : list string) (projects experience : list item)
    (kb : KnowledgeBase) :
  make_summary jd_tokens skills projects experience kb = "" <->
  experience = [] /\ projects = [].
Proof.
  split.
  - unfold make_summary. destruct experience as [|e es], projects as [|p ps];
      cbn [app]; intros H; try (split; reflexivity); exfalso; revert H.
    + apply py_join_nonempty. intros H.
      apply string_app_eq_nil in H as [H _]. discriminate H.
    + apply py_join_nonempty, string_app_literal_nonempty. discriminate.
    + apply py_join_nonempty, string_app_literal_nonempty. discriminate.
  - intros [-> ->]. reflexivity.
Qed.

(** ** The renderer *)

Lemma bind_inr {A B : Type} (m : result A) (k : A -> result B) (b : B) :
  bind m k = inr b -> exists a, m = inr a /\ k a = inr b.
Proof. destruct m as [e | a]; simpl; [discriminate | eauto]. Qed.

Lemma bind_inl {A B : Type} (m : result A) (k : A -> result B)
    (e : render_error) :
  bind m k = inl e -> m = inl e \/ exists a, m = inr a /\ k a = inl e.
Proof. destruct m as [e' | a]; simpl; [intros [= ->]; now left | eauto]. Qed.

Lemma headings_app (l1 l2 : list Paragraph) :
  headings (l1 ++ l2) = (headings l1 ++ headings l2)%list.
Proof. apply flat_map_app. Qed.

Lemma appends_refl (doc : list Paragraph) : appends [] doc doc.
Proof. exists []. now rewrite app_nil_r. Qed.

Lemma appends_trans (h1 h2 : list string) (d1 d2 d3 : list Paragraph) :
  appends h1 d1 d2 -> appends h2 d2 d3 -> appends (h1 ++ h2) d1 d3.
Proof.
  intros (s1 & -> & <-) (s2 & -> & <-). exists (s1 ++ s2)%list.
  now rewrite app_assoc, headings_app.
Qed.

Lemma appends_nil_l (h : list string) (d1 d2 d3 : list Paragraph) :
  appends [] d1 d2 -> appends h d2 d3 -> appends h d1 d3.
Proof. intros H1 H2. exact (appends_trans [] h d1 d2 d3 H1 H2). Qed.

Lemma appends_nil_r (h : list string) (d1 d2 d3 : list Paragraph) :
  appends h d1 d2 -> appends [] d2 d3 -> appends h d1 d3.
Proof.
  intros H1 H2. rewrite <- (app_nil_r h).
  exact (appends_trans h [] d1 d2 d3 H1 H2).
Qed.

Lemma add_blank_appends (doc : list Paragraph) :
  appends [] doc (add_blank doc).
Proof. eexists. split; reflexivity. Qed.

Lemma add_run_paragraph_appends (doc : list Paragraph) (text : string)
    (size : nat) (bold centered : bool) :
  size <> 12 -> appends [] doc (add_run_paragraph doc text size bold centered).
Proof.
  intros Hs. eexists. split; [reflexivity |].
  unfold headings, is_heading. simpl.
  destruct (Nat.eqb_spec size 12); [contradiction | reflexivity].
Qed.

Lemma add_text_paragraph_inr (doc doc' : list Paragraph) (text : string)
    (style : option string) (size : nat) (bold centered : bool) :
  add_text_paragraph doc text style size bold centered = inr doc' ->
  appends (if (size =? 12)%nat && bold then [text] else []) doc doc'.
Proof.
  unfold add_text_paragraph. destruct (string_is_empty text); [discriminate |].
  intros [= <-]. eexists. split; [reflexivity |].
  unfold headings, is_heading. simpl.
  destruct ((size =? 12)%nat && bold); reflexivity.
Qed.

Lemma add_text_paragraph_ok (doc : list Paragraph) (text : string)
    (style : option string) (size : nat) (bold centered : bool) :
  string_is_empty text = false ->
  exists doc', add_text_paragraph doc text style size bold centered = inr doc'.
Proof. intros H. unfold add_text_paragraph. rewrite H. now eexists. Qed.

Lemma add_text_paragraph_inl (doc : list Paragraph) (text : string)
    (style : option string) (size : nat) (bold centered : bool)
    (e : render_error) :
  add_text_paragraph doc text style size bold centered = inl e ->
  e = IndexError /\ text = "".
Proof.
  unfold add_text_paragraph. destruct text; simpl; [| discriminate].
  now intros [= <-].
Qed.

Lemma foldM_appends {A : Type}
    (f : list Paragraph -> A -> result (list Paragraph)) (l : list A) :
  (forall d x d', f d x = inr d' -> appends [] d d') ->
  forall doc doc', foldM f l doc = inr doc' -> appends [] doc doc'.
Proof.
  intros Hf. induction l as [|x l IH]; simpl; intros doc doc' H.
  - injection H as <-. apply appends_refl.
  - apply bind_inr in H as (d & H1 & H2).
    exact (appends_nil_l [] doc d doc' (Hf _ _ _ H1) (IH _ _ H2)).
Qed.

Lemma foldM_inl {A : Type}
    (f : list Paragraph -> A -> result (list Paragraph)) (l : list A)
    (Q : A -> Prop) (e0 : render_error) :
  (forall d x e, f d x = inl e -> e = e0 /\ Q x) ->
  forall doc e, foldM f l doc = inl e -> e = e0 /\ Exists Q l.
Proof.
  intros Hf. induction l as [|x l IH]; simpl; intros doc e H.
  - discriminate.
  - apply bind_inl in H as [H | (d & _ & H)].
    + destruct (Hf _ _ _ H) as [-> HQ]. split; [reflexivity | now left].
    + destruct (IH _ _ H) as [-> HQ]. split; [reflexivity | now right].
Qed.

Lemma render_section_appends {A : Type} (title : string)
    (f : list Paragraph -> A -> result (list Paragraph)) (l : list A)
    (doc doc' : list Paragraph) :
  (forall d x d', f d x = inr d' -> appends [] d d') ->
  render_section title f l doc = inr doc' ->
  appends (section_heading title l) doc doc'.
Proof.
  intros Hf. unfold render_section. destruct l as [|x l].
  - intros [= <-]. apply appends_refl.
  - intros H. apply bind_inr in H as (d1 & H1 & H).
    apply bind_inr in H as (d2 & H2 & H). injection H as <-.
    apply add_text_paragraph_inr in H1. simpl in H1.
    apply (foldM_appends f _ Hf) in H2.
    eapply appends_nil_r; [| apply add_blank_appends].
    eapply appends_nil_r; eassumption.
Qed.

Lemma render_section_inl {A : Type} (title : string)
    (f : list Paragraph -> A -> result (list Paragraph)) (l : list A)
    (Q : A -> Prop) (doc : list Paragraph) (e : render_error) :
  string_is_empty title = false ->
  (forall d x e, f d x = inl e -> e = TextNotStr /\ Q x) ->
  render_section title f l doc = inl e ->
  e = TextNotStr /\ Exists Q l.
Proof.
  intros Ht Hf. unfold render_section. destruct l as [|x l]; [discriminate |].
  intros H. apply bind_inl in H as [H | (d1 & _ & H)].
  - apply add_text_paragraph_inl in H as [_ ->]. discriminate.
  - apply bind_inl in H as [H | (d2 & _ & H)]; [| discriminate].
    exact (foldM_inl f _ Q TextNotStr Hf _ _ H).
Qed.

Lemma add_description_inr (doc doc' : list Paragraph) (it : item) :
  add_description doc it = inr doc' -> appends [] doc doc'.
Proof.
  unfold add_description. destruct (it !! "description") as [v|].
  - destruct (py_truthy (Some v)).
    + intros H. apply bind_inr in H as (text & _ & H).
      now apply add_text_paragraph_inr in H.
    + intros [= <-]. apply appends_refl.
  - intros [= <-]. apply appends_refl.
Qed.

Lemma add_description_inl (doc : list Paragraph) (it : item)
    (e : render_error) :
  add_description doc it = inl e ->
  e = TextNotStr /\ ~ str_field it "description".
Proof.
  unfold add_description, str_field.
  destruct (it !! "description") as [[s | [|x l]]|]; simpl; try discriminate.
  - destruct s; simpl; discriminate.
  - intros [= <-]. tauto.
Qed.

Lemma render_experience_item_inr (em_dash : string)
    (doc doc' : list Paragraph) (e : item) :
  render_experience_item em_dash doc e = inr doc' -> appends [] doc doc'.
Proof.
  unfold render_experience_item. intros H.
  apply bind_inr in H as (d1 & H1 & H).
  apply add_description_inr in H1.
  eapply appends_nil_l; [| eapply appends_nil_l; [exact H1 |]].
  - apply add_run_paragraph_appends. lia.
  - revert H. apply foldM_appends.
    intros d b d' Hb. now apply add_text_paragraph_inr in Hb.
Qed.

Lemma render_experience_item_inl (em_dash : string) (doc : list Paragraph)
    (e : item) (err : render_error) :
  render_experience_item em_dash doc e = inl err ->
  err = TextNotStr /\ ~ str_field e "description".
Proof.
  unfold render_experience_item. intros H.
  apply bind_inl in H as [H | (d1 & _ & H)].
  - now apply add_description_inl in H.
  - apply (foldM_inl _ _ (fun _ => False) TextNotStr) in H.
    + destruct H as [_ H]. apply Exists_exists in H as (_ & _ & []).
    + intros d b e' Hb. apply add_text_paragraph_inl in Hb as [_ Hb].
      discriminate Hb.
Qed.

Lemma render_project_item_inr (doc doc' : list Paragraph) (p : item) :
  render_project_item doc p = inr doc' -> appends [] doc doc'.
Proof.
  unfold render_project_item. intros H.
  apply bind_inr in H as (name & _ & H).
  apply bind_inr in H as (d1 & H1 & H).
  apply add_description_inr in H1.
  eapply appends_nil_l; [| eapply appends_nil_l; [exact H1 |]].
  - apply add_run_paragraph_appends. lia.
  - destruct (py_iter (default (VList []) (p !! "tech"))).
    + injection H as <-. apply appends_refl.
    + now apply add_text_paragraph_inr in H.
Qed.

Lemma render_project_item_inl (doc : list Paragraph) (p : item)
    (err : render_error) :
  render_project_item doc p = inl err ->
  err = TextNotStr /\ (~ str_field p "name" \/ ~ str_field p "description").
Proof.
  unfold render_project_item. intros H.
  apply bind_inl in H as [H | (name & _ & H)].
  - unfold str_field.
    destruct (p !! "name") as [[s | [|x l]]|]; simpl in H; try discriminate.
    injection H as <-. tauto.
  - apply bind_inl in H as [H | (d1 & _ & H)].
    + apply add_description_inl in H. tauto.
    + destruct (py_iter (default (VList []) (p !! "tech"))); [discriminate |].
      apply add_text_paragraph_inl in H as [_ H]. discriminate H.
Qed.

Lemma py_join_eq_nil (sep : string) (l : list string) :
  sep <> "" -> py_join sep l = "" -> l = [] \/ l = [""].
Proof.
  intros Hsep. destruct l as [|x [|y l]]; simpl; intros H.
  - now left.
  - right. now subst.
  - apply string_app_eq_nil in H as [_ H].
    apply string_app_eq_nil in H as [H _]. contradiction.
Qed.

Lemma string_is_empty_false (s : string) : string_is_empty s = false <-> s <> "".
Proof. destruct s; simpl; split; congruence. Qed.

Section RenderWord.
Variable em_dash : string.
Variable profile : Profile.
Variable kb : KnowledgeBase.
Variable selected : SelectionResult.

Let name_paragraph : Paragraph :=
  {| par_runs := [styled_run (default "Your Name" (kb_name profile)) 18 true];
     par_style := None; par_centered := true |}.

Let summary : string :=
  make_summary (sel_jd_tokens selected) (sel_skills selected)
               (sel_projects selected) (sel_experience selected) kb.

Lemma render_word_shape (doc : list Paragraph) :
  render_word em_dash profile kb selected = inr doc ->
  appends ((if string_is_empty summary then [] else ["SUMMARY"]) ++
           section_heading "SKILLS" (sel_skills selected) ++
           section_heading "EXPERIENCE" (sel_experience selected) ++
           section_heading "EDUCATION" (sel_education selected) ++
           section_heading "PROJECTS" (sel_projects selected) ++
           section_heading "CERTIFICATIONS" (sel_certs selected))%list
          [name_paragraph] doc.
Proof.
  unfold render_word. cbv zeta. fold summary. intros H.
  apply bind_inr in H as (d1 & H1 & H).
  apply bind_inr in H as (d2 & H2 & H).
  apply bind_inr in H as (d3 & H3 & H).
  apply bind_inr in H as (d4 & H4 & H).
  apply bind_inr in H as (d5 & H5 & H).
  apply bind_inr in H as (d6 & H6 & H).
  assert (A1 : appends [] [name_paragraph] (add_blank d1)).
  { eapply appends_nil_r; [| apply add_blank_appends].
    destruct (string_is_empty (contact_line (kb_contact profile))).
    - injection H1 as <-. apply appends_refl.
    - now apply add_text_paragraph_inr in H1. }
  assert (A2 : appends (if string_is_empty summary then [] else ["SUMMARY"])
                       (add_blank d1) d2).
  { destruct (string_is_empty summary).
    - injection H2 as <-. apply appends_refl.
    - apply bind_inr in H2 as (e1 & E1 & H2).
      apply bind_inr in H2 as (e2 & E2 & H2). injection H2 as <-.
      apply add_text_paragraph_inr in E1, E2. simpl in E1, E2.
      eapply appends_nil_r; [| apply add_blank_appends].
      eapply appends_nil_r; eassumption. }
  assert (A3 : appends (section_heading "SKILLS" (sel_skills selected)) d2 d3).
  { destruct (sel_skills selected) as [|s ss].
    - injection H3 as <-. apply appends_refl.
    - apply bind_inr in H3 as (e1 & E1 & H3).
      apply bind_inr in H3 as (e2 & E2 & H3). injection H3 as <-.
      apply add_text_paragraph_inr in E1, E2. simpl in E1, E2.
      eapply appends_nil_r; [| apply add_blank_appends].
      eapply appends_nil_r; eassumption. }
  apply render_section_appends in H4;
    [| intros d x d'; apply render_experience_item_inr].
  apply render_section_appends in H5;
    [| intros d x d' [= <-]; apply add_run_paragraph_appends; lia].
  apply render_section_appends in H6;
    [| intros d x d'; apply render_project_item_inr].
  apply render_section_appends in H;
    [| intros d x d' [= <-]; apply add_run_paragraph_appends; lia].
  eapply appends_nil_l; [exact A1 |].
  repeat (eapply appends_trans; [eassumption |]). assumption.
Qed.

Lemma render_word_inl (e : render_error) :
  render_word em_dash profile kb selected = inl e ->
  (e = IndexError /\ sel_skills selected = [""]) \/
  (e = TextNotStr /\
   (Exists (fun it => ~ str_field it "description") (sel_experience selected) \/
    Exists (fun p => ~ str_field p "name" \/ ~ str_field p "description")
           (sel_projects selected))).
Proof.
  unfold render_word. cbv zeta. fold summary. intros H.
  apply bind_inl in H as [H | (d1 & _ & H)].
  { destruct (string_is_empty (contact_line (kb_contact profile))) eqn:Hc;
      [discriminate |].
    apply add_text_paragraph_inl in H as [_ H]. rewrite H in Hc. discriminate. }
  apply bind_inl in H as [H | (d2 & _ & H)].
  { destruct (string_is_empty summary) eqn:Hs; [discriminate |].
    apply bind_inl in H as [H | (e1 & _ & H)].
    - apply add_text_paragraph_inl in H as [_ H]. discriminate.
    - apply bind_inl in H as [H | (e2 & _ & H)]; [| discriminate].
      apply add_text_paragraph_inl in H as [_ H]. rewrite H in Hs.
      discriminate. }
  apply bind_inl in H as [H | (d3 & _ & H)].
  { left. destruct (sel_skills selected) as [|s ss] eqn:Hsk; [discriminate |].
    apply bind_inl in H as [H | (e1 & _ & H)].
    - apply add_text_paragraph_inl in H as [_ H]. discriminate.
    - apply bind_inl in H as [H | (e2 & _ & H)]; [| discriminate].
      apply add_text_paragraph_inl in H as [-> H].
      apply py_join_eq_nil in H as [H | H]; [discriminate | | discriminate].
      now split. }
  right.
  apply bind_inl in H as [H | (d4 & _ & H)].
  { apply render_section_inl
      with (Q := fun it => ~ str_field it "description") in H;
      [tauto | reflexivity |].
    intros d x e'. apply render_experience_item_inl. }
  apply bind_inl in H as [H | (d5 & _ & H)].
  { apply render_section_inl with (Q := fun _ => False) in H;
      [| reflexivity | discriminate].
    destruct H as [_ H]. apply Exists_exists in H as (_ & _ & []). }
  apply bind_inl in H as [H | (d6 & _ & H)].
  { apply render_section_inl
      with (Q := fun p => ~ str_field p "name" \/ ~ str_field p "description")
      in H; [tauto | reflexivity |].
    intros d x e'. apply render_project_item_inl. }
  apply render_section_inl with (Q := fun _ => False) in H;
    [| reflexivity | discriminate].
  destruct H as [_ H]. apply Exists_exists in H as (_ & _ & []).
Qed.
End RenderWord.

Lemma select_relevant_empty (kb : KnowledgeBase) (limits : gmap string Z) :
  select_relevant kb "" limits =
  {| sel_skills := []; sel_projects := []; sel_experience := [];
     sel_certs := [];
     sel_education :=
       py_slice_to (kb_education kb) (limit_get limits "education" 2);
     sel_jd_tokens := ∅ |}.
Proof.
  unfold select_relevant. cbv zeta.
  now rewrite tokenize_empty, select_skills_empty, !rank_section_empty.
Qed.










(** ** The command line *)

Lemma main_limits_get (args : Args) (d : Z) :
  limit_get (main_limits args) "skills" d = arg_skills args /\
  limit_get (main_limits args) "projects" d = arg_projects args /\
  limit_get (main_limits args) "experience" d = arg_experience args /\
  limit_get (main_limits args) "certificates" d = arg_certs args /\
  limit_get (main_limits args) "education" d = arg_education args.
Proof. repeat split. Qed.

(** X21: [main] passes all five limits, so the defaults that
    [select_relevant] has for absent keys are never used: every output is cut
    by the option of the command line, and with the parser's defaults the
    outputs have at most 15 skills, 5 projects, 4 experience items,
    7 certificates and 2 education entries. *)
Theorem main_limits_effective (args : Args) (kb : KnowledgeBase)
    (jd_text : string) :
  let r := select_relevant kb jd_text (main_limits args) in
  let r0 := select_relevant kb jd_text (main_limits default_args) in
  (sel_skills r =
     select_skills (tokenize jd_text) (kb_skills kb) (arg_skills args) /\
   sel_projects r =
     rank_section (tokenize jd_text) (kb_projects kb) project_fields
                  (arg_projects args) /\
   sel_experience r =
     rank_section (tokenize jd_text) (kb_experience kb) experience_fields
                  (arg_experience args) /\
   sel_certs r =
     rank_section (tokenize jd_text) (kb_certificates kb) certificate_fields
                  (arg_certs args) /\
   sel_education r = py_slice_to (kb_education kb) (arg_education args)) /\
  (length (sel_skills r0) <= 15 /\ length (sel_projects r0) <= 5 /\
   length (sel_experience r0) <= 4 /\ length (sel_certs r0) <= 7 /\
   length (sel_education r0) <= 2).
Proof.
  cbv zeta. split.
  - unfold select_relevant. cbv zeta. simpl.
    destruct (main_limits_get args 10) as (-> & _).
    destruct (main_limits_get args 3) as (_ & -> & -> & -> & _).
    destruct (main_limits_get args 2) as (_ & _ & _ & _ & ->).
    repeat split.
  - pose proof (py_slice_to_length
      (if (Z.of_nat (length (skills_pass1 (tokenize jd_text) (kb_skills kb))) <? 15)%Z
       then skills_pass2 (tokenize jd_text) (kb_skills kb)
              (skills_pass1 (tokenize jd_text) (kb_skills kb))
       else skills_pass1 (tokenize jd_text) (kb_skills kb)) 15) as H1.
    pose proof (rank_section_length (tokenize jd_text) project_fields
                  (kb_projects kb) 5) as H2.
    pose proof (rank_section_length (tokenize jd_text) experience_fields
                  (kb_experience kb) 4) as H3.
    pose proof (rank_section_length (tokenize jd_text) certificate_fields
                  (kb_certificates kb) 7) as H4.
    pose proof (py_slice_to_length (kb_education kb) 2) as H5.
    change (length (sel_skills (select_relevant kb jd_text
                                  (main_limits default_args))))
      with (length (select_skills (tokenize jd_text) (kb_skills kb) 15)).
    change (length (sel_projects (select_relevant kb jd_text
                                    (main_limits default_args))))
      with (length (rank_section (tokenize jd_text) (kb_projects kb)
                                 project_fields 5)).
    change (length (sel_experience (select_relevant kb jd_text
                                      (main_limits default_args))))
      with (length (rank_section (tokenize jd_text) (kb_experience kb)
                                 experience_fields 4)).
    change (length (sel_certs (select_relevant kb jd_text
                                 (main_limits default_args))))
      with (length (rank_section (tokenize jd_text) (kb_certificates kb)
                                 certificate_fields 7)).
    change (length (sel_education (select_relevant kb jd_text
                                     (main_limits default_args))))
      with (length (py_slice_to (kb_education kb) 2)).
    unfold select_skills. lia.
Qed.
